(** * Kitchen: a fixed-capacity bag of polymorphic dishes

    A shallow embedding of the C++ sources [Appetizer.cpp], [MainCourse.cpp],
    [Dessert.cpp] and [Kitchen.cpp].

    - [int] is a 32-bit two's-complement integer: a [Z] together with the
      wrap-around [wrap] applied after every arithmetic operation.
    - [std::string] is [string], [std::vector<T>] is [list T], [double] is a
      binary64 value ([spec_float]).
    - A [Dish*] is an address into a store of dish objects; [delete] turns
      the cell into a tombstone, and reading through a dangling or
      indeterminate pointer is undefined behaviour, rendered as [None]. *)

From Stdlib Require Import ZArith Lia Bool Ascii.
From Stdlib Require Import Floats.SpecFloat.
From stdpp Require Import base option list strings.

Open Scope Z_scope.

(** ** Machine integers *)

Definition INT_MIN : Z := - 2 ^ 31.
Definition INT_MAX : Z := 2 ^ 31 - 1.

(** The value an [int] holds after an arithmetic result [z]. *)
Definition wrap (z : Z) : Z := (z + 2 ^ 31) mod 2 ^ 32 - 2 ^ 31.

Definition in_int (z : Z) : Prop := INT_MIN <= z <= INT_MAX.

(** ** Data model *)

Inductive CuisineType :=
  ITALIAN | MEXICAN | CHINESE | INDIAN | AMERICAN | FRENCH | OTHER.

Inductive ServingStyle := PLATED | FAMILY_STYLE | BUFFET.

Inductive CookingMethod := GRILLED | BAKED | BOILED | FRIED | STEAMED | RAW.

Inductive Category :=
  GRAIN | PASTA | LEGUME | BREAD | SALAD | SOUP | STARCHES | VEGETABLE.

Inductive FlavorProfile := SWEET | BITTER | SOUR | SALTY | UMAMI.

Record SideDish := mkSideDish { side_name : string; category : Category }.

(** [Dish::DietaryRequest]: six independent flags. *)
Record DietaryRequest := mkRequest {
  vegetarian : bool;
  vegan : bool;
  gluten_free : bool;
  nut_free : bool;
  low_sodium : bool;
  low_sugar : bool }.

(** The members every dish has (class [Dish]). *)
Record DishBase := mkBase {
  name_ : string;
  ingredients_ : list string;
  prep_time_ : Z;
  price_ : spec_float;
  cuisine_type_ : CuisineType }.

Definition setIngredients (ingredients : list string) (b : DishBase) : DishBase :=
  mkBase (name_ b) ingredients (prep_time_ b) (price_ b) (cuisine_type_ b).

Record Appetizer := mkAppetizer {
  appetizer_base : DishBase;
  serving_style_ : ServingStyle;
  spiciness_level_ : Z;
  vegetarian_ : bool }.

Record MainCourse := mkMainCourse {
  main_base : DishBase;
  cooking_method_ : CookingMethod;
  protein_type_ : string;
  side_dishes_ : list SideDish;
  gluten_free_ : bool }.

Record Dessert := mkDessert {
  dessert_base : DishBase;
  flavor_profile_ : FlavorProfile;
  sweetness_level_ : Z;
  contains_nuts_ : bool }.

(** A dish object is one of the three concrete classes. *)
Inductive Dish :=
  | AnAppetizer (a : Appetizer)
  | AMainCourse (m : MainCourse)
  | ADessert (d : Dessert).

Definition base (d : Dish) : DishBase :=
  match d with
  | AnAppetizer a => appetizer_base a
  | AMainCourse m => main_base m
  | ADessert s => dessert_base s
  end.

Definition getPrepTime (d : Dish) : Z := prep_time_ (base d).
Definition getIngredients (d : Dish) : list string := ingredients_ (base d).
Definition getCuisine (d : Dish) : CuisineType := cuisine_type_ (base d).

#[global] Instance CuisineType_eq_dec : EqDecision CuisineType.
Proof. solve_decision. Defined.
#[global] Instance ServingStyle_eq_dec : EqDecision ServingStyle.
Proof. solve_decision. Defined.
#[global] Instance CookingMethod_eq_dec : EqDecision CookingMethod.
Proof. solve_decision. Defined.
#[global] Instance Category_eq_dec : EqDecision Category.
Proof. solve_decision. Defined.
#[global] Instance FlavorProfile_eq_dec : EqDecision FlavorProfile.
Proof. solve_decision. Defined.
#[global] Instance SideDish_eq_dec : EqDecision SideDish.
Proof. solve_decision. Defined.
#[global] Instance spec_float_eq_dec : EqDecision spec_float.
Proof. solve_decision. Defined.
#[global] Instance DishBase_eq_dec : EqDecision DishBase.
Proof. solve_decision. Defined.
#[global] Instance Appetizer_eq_dec : EqDecision Appetizer.
Proof. solve_decision. Defined.
#[global] Instance MainCourse_eq_dec : EqDecision MainCourse.
Proof. solve_decision. Defined.
#[global] Instance Dessert_eq_dec : EqDecision Dessert.
Proof. solve_decision. Defined.
#[global] Instance Dish_eq_dec : EqDecision Dish.
Proof. solve_decision. Defined.

(** Modelled from the spec: [Dish::operator==] ([Dish.cpp] is not among the
    sources).  Two dishes are equal when all shared attributes and, for the
    same class, all class-specific attributes are equal; dishes of different
    classes are unequal. *)
Definition dish_eqb (x y : Dish) : bool := bool_decide (x = y).

(** ** Ingredient scans shared by the three classes *)

(** The state of one rebuilding loop: the vector being built and the two
    "replacement already used" flags. *)
Record scan := mkScan {
  new_ingredients : list string;
  used_first : bool;
  used_second : bool }.

Definition push_back (s : string) (st : scan) : scan :=
  mkScan (new_ingredients st ++ [s]) (used_first st) (used_second st).

(** Inner loop [for (name : names) if (ingredient == name) { ...; break; }]
    of the removal passes: only the flag is computed. *)
Fixpoint is_listed (ingredient : string) (names : list string) : bool :=
  match names with
  | [] => false
  | n :: rest => if String.eqb ingredient n then true else is_listed ingredient rest
  end.

(** Outer loop of a removal pass: every ingredient that is not listed is
    pushed onto the new vector. *)
Definition drop_listed (names : list string) (ingredients : list string) : list string :=
  fold_left (fun acc ingredient =>
               if negb (is_listed ingredient names) then acc ++ [ingredient] else acc)
            ingredients [].

(** Inner loop of the substitution passes: on the first listed name that
    equals the ingredient, a replacement is pushed if one is left, and the
    loop breaks.  Returns the flag and the loop state. *)
Fixpoint replace_listed (r1 r2 : string) (ingredient : string)
    (names : list string) (st : scan) : bool * scan :=
  match names with
  | [] => (false, st)
  | n :: rest =>
      if String.eqb ingredient n then
        (true,
         if negb (used_first st)
         then mkScan (new_ingredients st ++ [r1]) true (used_second st)
         else if negb (used_second st)
              then mkScan (new_ingredients st ++ [r2]) (used_first st) true
              else st)
      else replace_listed r1 r2 ingredient rest st
  end.

(** One iteration of the outer loop of a substitution pass. *)
Definition substitute_step (names : list string) (r1 r2 : string)
    (st : scan) (ingredient : string) : scan :=
  let '(hit, st') := replace_listed r1 r2 ingredient names st in
  if negb hit then push_back ingredient st' else st'.

(** The outer loop, started on the vector [start] with both flags clear. *)
Definition substitute_from (start : list string) (names : list string)
    (r1 r2 : string) (ingredients : list string) : list string :=
  new_ingredients
    (fold_left (substitute_step names r1 r2) ingredients (mkScan start false false)).

(** The bounded substitution in the words of the specification: in the
    original order, the first forbidden ingredient becomes [r1], the second
    becomes [r2], any further one is dropped, every other ingredient is
    copied.  [left] is the list of replacements not yet used. *)
Fixpoint bounded_substitution (forbidden : list string) (left : list string)
    (ingredients : list string) : list string :=
  match ingredients with
  | [] => []
  | x :: rest =>
      if bool_decide (x ∈ forbidden) then
        match left with
        | r :: left' => r :: bounded_substitution forbidden left' rest
        | [] => bounded_substitution forbidden [] rest
        end
      else x :: bounded_substitution forbidden left rest
  end.

Definition non_vegetarian : list string :=
  ["Meat"; "Chicken"; "Fish"; "Beef"; "Pork"; "Lamb"; "Shrimp"; "Bacon"]%string.
Definition gluten_containing : list string :=
  ["Wheat"; "Flour"; "Bread"; "Pasta"; "Barley"; "Rye"; "Oats"; "Crust"]%string.
Definition dairy_and_eggs : list string :=
  ["Milk"; "Eggs"; "Cheese"; "Butter"; "Cream"; "Yogurt"]%string.
Definition nuts : list string :=
  ["Almonds"; "Walnuts"; "Pecans"; "Hazelnuts"; "Peanuts"; "Cashews"; "Pistachios"]%string.

(** ** Appetizer *)

Module AppetizerOps.

Definition set_base (b : DishBase) (a : Appetizer) : Appetizer :=
  mkAppetizer b (serving_style_ a) (spiciness_level_ a) (vegetarian_ a).

(** [Appetizer::dietaryAccommodations]. *)
Definition dietaryAccommodations (request : DietaryRequest) (self : Appetizer) : Appetizer :=
  let self :=
    if vegetarian request then
      let self := mkAppetizer (appetizer_base self) (serving_style_ self)
                              (spiciness_level_ self) true in
      set_base (setIngredients
                  (substitute_from [] non_vegetarian "Beans" "Mushrooms"
                     (ingredients_ (appetizer_base self)))
                  (appetizer_base self)) self
    else self in
  let self :=
    if low_sodium request then
      mkAppetizer (appetizer_base self) (serving_style_ self)
                  (Z.max 0 (wrap (spiciness_level_ self - 2))) (vegetarian_ self)
    else self in
  if gluten_free request then
    set_base (setIngredients
                (drop_listed gluten_containing (ingredients_ (appetizer_base self)))
                (appetizer_base self)) self
  else self.

End AppetizerOps.

(** ** MainCourse *)

Module MainCourseOps.

Definition set_base (b : DishBase) (m : MainCourse) : MainCourse :=
  mkMainCourse b (cooking_method_ m) (protein_type_ m) (side_dishes_ m) (gluten_free_ m).

Definition set_protein (p : string) (m : MainCourse) : MainCourse :=
  mkMainCourse (main_base m) (cooking_method_ m) p (side_dishes_ m) (gluten_free_ m).

(** The loop that keeps the side dishes whose category has no gluten. *)
Definition keep_side (side : SideDish) : bool :=
  negb (bool_decide (category side = GRAIN)) && negb (bool_decide (category side = PASTA))
  && negb (bool_decide (category side = BREAD)) && negb (bool_decide (category side = STARCHES)).

Definition gluten_free_sides (sides : list SideDish) : list SideDish :=
  fold_left (fun acc side => if keep_side side then acc ++ [side] else acc) sides [].

(** [MainCourse::dietaryAccommodations]. *)
Definition dietaryAccommodations (request : DietaryRequest) (self : MainCourse) : MainCourse :=
  let self :=
    if vegetarian request then
      let self := set_protein "Tofu" self in
      set_base (setIngredients
                  (substitute_from [] non_vegetarian "Beans" "Mushrooms"
                     (ingredients_ (main_base self)))
                  (main_base self)) self
    else self in
  let self :=
    if vegan request then
      let self := set_protein "Tofu" self in
      set_base (setIngredients
                  (drop_listed dairy_and_eggs (ingredients_ (main_base self)))
                  (main_base self)) self
    else self in
  if gluten_free request then
    mkMainCourse (main_base self) (cooking_method_ self) (protein_type_ self)
                 (gluten_free_sides (side_dishes_ self)) true
  else self.

End MainCourseOps.

(** ** Dessert *)

Module DessertOps.

Definition set_base (b : DishBase) (d : Dessert) : Dessert :=
  mkDessert b (flavor_profile_ d) (sweetness_level_ d) (contains_nuts_ d).

(** [Dessert::dietaryAccommodations].  The function keeps two local
    vectors, [current_ingredients] (a copy of the dish's list) and
    [new_ingredients], and a flag [need_update].  The vegan pass first
    clears [new_ingredients] and then walks
    [need_update ? new_ingredients : current_ingredients]: the conditional
    is an lvalue, so after a nut-free pass the loop ranges over the vector
    it has just cleared. *)
Definition dietaryAccommodations (request : DietaryRequest) (self : Dessert) : Dessert :=
  let new_ingredients : list string := [] in
  let need_update := false in
  let current_ingredients := ingredients_ (dessert_base self) in
  (* if (request.nut_free) *)
  let '(self, new_ingredients, need_update) :=
    if nut_free request then
      (mkDessert (dessert_base self) (flavor_profile_ self) (sweetness_level_ self) false,
       new_ingredients ++ drop_listed nuts current_ingredients,
       true)
    else (self, new_ingredients, need_update) in
  (* if (request.low_sugar) *)
  let self :=
    if low_sugar request then
      mkDessert (dessert_base self) (flavor_profile_ self)
                (Z.max 0 (wrap (sweetness_level_ self - 3))) (contains_nuts_ self)
    else self in
  (* if (request.vegan) *)
  let '(new_ingredients, need_update) :=
    if vegan request then
      let new_ingredients : list string := [] in   (* new_ingredients.clear() *)
      let range := if need_update then new_ingredients else current_ingredients in
      (substitute_from new_ingredients dairy_and_eggs "Almond Milk" "Flax Egg" range,
       true)
    else (new_ingredients, need_update) in
  if need_update then set_base (setIngredients new_ingredients (dessert_base self)) self
  else self.

End DessertOps.

(** Virtual dispatch of [dietaryAccommodations]. *)
Definition dietaryAccommodations (request : DietaryRequest) (d : Dish) : Dish :=
  match d with
  | AnAppetizer a => AnAppetizer (AppetizerOps.dietaryAccommodations request a)
  | AMainCourse m => AMainCourse (MainCourseOps.dietaryAccommodations request m)
  | ADessert s => ADessert (DessertOps.dietaryAccommodations request s)
  end.

(** ** Enum conversions used when a kitchen is read from a file *)

Definition stringToServingStyle (str : string) : ServingStyle :=
  if String.eqb str "PLATED" then PLATED
  else if String.eqb str "BUFFET" then BUFFET
  else if String.eqb str "FAMILY_STYLE" then FAMILY_STYLE
  else PLATED.

Definition stringToCookingMethod (str : string) : CookingMethod :=
  if String.eqb str "GRILLED" then GRILLED
  else if String.eqb str "BAKED" then BAKED
  else if String.eqb str "BOILED" then BOILED
  else if String.eqb str "FRIED" then FRIED
  else if String.eqb str "STEAMED" then STEAMED
  else if String.eqb str "RAW" then RAW
  else GRILLED.

Definition stringToFlavorProfile (str : string) : FlavorProfile :=
  if String.eqb str "SWEET" then SWEET
  else if String.eqb str "BITTER" then BITTER
  else if String.eqb str "SOUR" then SOUR
  else if String.eqb str "SALTY" then SALTY
  else if String.eqb str "UMAMI" then UMAMI
  else SWEET.

Definition stringToCuisineType (str : string) : CuisineType :=
  if String.eqb str "ITALIAN" then ITALIAN
  else if String.eqb str "MEXICAN" then MEXICAN
  else if String.eqb str "CHINESE" then CHINESE
  else if String.eqb str "INDIAN" then INDIAN
  else if String.eqb str "AMERICAN" then AMERICAN
  else if String.eqb str "FRENCH" then FRENCH
  else OTHER.

(** ** Kitchen: an [ArrayBag<Dish*>] with two running totals *)

Abbreviation addr := nat (only parsing).

(** The kitchen object together with the free store that holds the dish
    objects.  A store cell is [Some d] for a live object and [None] once it
    has been deleted.  [items_] is the fixed array of the bag (its length is
    the capacity); a slot is [None] while it has never been written. *)
Record Kitchen := mkKitchen {
  heap : list (option Dish);
  items_ : list (option addr);
  item_count_ : nat;
  total_prep_time_ : Z;
  count_elaborate_ : Z }.

#[global] Instance Kitchen_eq_dec : EqDecision Kitchen.
Proof. solve_decision. Defined.

Definition getCurrentSize (k : Kitchen) : nat := item_count_ k.
Definition getCapacity (k : Kitchen) : nat := length (items_ k).

(** [Kitchen::Kitchen()], for a bag of the given capacity. *)
Definition Kitchen_new (capacity : nat) : Kitchen :=
  mkKitchen [] (replicate capacity None) 0 0 0.

(** [*p]: undefined for an indeterminate or dangling pointer. *)
Definition deref (h : list (option Dish)) (p : option addr) : option Dish :=
  a ← p; cell ← h !! a; cell.

(** [*items_[i]]: undefined outside the array as well. *)
Definition dish_at (k : Kitchen) (i : nat) : option Dish :=
  p ← items_ k !! i; deref (heap k) p.

(** [new D(d)]: a fresh cell at the end of the store. *)
Definition new_dish (d : Dish) (k : Kitchen) : addr * Kitchen :=
  (length (heap k),
   mkKitchen (heap k ++ [Some d]) (items_ k) (item_count_ k)
             (total_prep_time_ k) (count_elaborate_ k)).

(** [delete p]. *)
Definition delete_dish (p : option addr) (k : Kitchen) : Kitchen :=
  match p with
  | Some a => mkKitchen (<[a := None]> (heap k)) (items_ k) (item_count_ k)
                        (total_prep_time_ k) (count_elaborate_ k)
  | None => k
  end.

Definition set_total_prep_time (t : Z) (k : Kitchen) : Kitchen :=
  mkKitchen (heap k) (items_ k) (item_count_ k) t (count_elaborate_ k).

Definition set_count_elaborate (c : Z) (k : Kitchen) : Kitchen :=
  mkKitchen (heap k) (items_ k) (item_count_ k) (total_prep_time_ k) c.

(** Modelled from the spec: [ArrayBag::add] ([ArrayBag.hpp] is not among the
    sources).  Fails without mutation when the size equals the capacity;
    otherwise stores the item at index [current_size] and increments the
    size. *)
Definition add (new_entry : addr) (k : Kitchen) : bool * Kitchen :=
  if bool_decide (item_count_ k = length (items_ k)) then (false, k)
  else (true,
        mkKitchen (heap k) (<[item_count_ k := Some new_entry]> (items_ k))
                  (S (item_count_ k)) (total_prep_time_ k) (count_elaborate_ k)).

(** Modelled from the spec: [ArrayBag::remove] ([ArrayBag.hpp] is not among
    the sources).  Scans indices [0 .. current_size) for the first element
    equal to the entry (for [Dish*] elements: the same pointer); when found
    at index [i], overwrites slot [i] with the element at index
    [current_size - 1] and decrements the size.  No other slot is written. *)
Definition remove (an_entry : option addr) (k : Kitchen) : bool * Kitchen :=
  match list_find (fun q => q = an_entry) (take (item_count_ k) (items_ k)) with
  | Some (i, _) =>
      (true,
       mkKitchen (heap k)
                 (<[i := items_ k !!! (item_count_ k - 1)%nat]> (items_ k))
                 (item_count_ k - 1)%nat (total_prep_time_ k) (count_elaborate_ k))
  | None => (false, k)
  end.

(** The test both [newOrder] and [serveDish] apply:
    [getIngredients().size() >= 5 && getPrepTime() >= 60]. *)
Definition is_elaborate (d : Dish) : bool :=
  (5 <=? length (getIngredients d))%nat && (60 <=? getPrepTime d).

(** [Kitchen::newOrder] *)
Definition newOrder (new_dish : addr) (k : Kitchen) : option (bool * Kitchen) :=
  let '(added, k) := add new_dish k in
  if added then
    d ← deref (heap k) (Some new_dish);
    let k := set_total_prep_time (wrap (total_prep_time_ k + getPrepTime d)) k in
    let k := if is_elaborate d
             then set_count_elaborate (wrap (count_elaborate_ k + 1)) k else k in
    Some (true, k)
  else Some (false, k).

(** The loop of [Kitchen::serveDish], at index [i] with [n] iterations to
    go.  The argument is the dish the pointer [dish_to_remove] refers to; it
    is only read, and only before anything is deleted. *)
Fixpoint serveDish_loop (dish_to_remove : Dish) (k : Kitchen) (i n : nat)
    : option (bool * Kitchen) :=
  match n with
  | O => Some (false, k)
  | S n' =>
      p ← items_ k !! i;
      x ← deref (heap k) p;
      if dish_eqb x dish_to_remove then
        let k := set_total_prep_time (wrap (total_prep_time_ k - getPrepTime x)) k in
        let k := if is_elaborate x
                 then set_count_elaborate (wrap (count_elaborate_ k - 1)) k else k in
        let k := delete_dish p k in
        Some (true, (remove p k).2)
      else serveDish_loop dish_to_remove k (S i) n'
  end.

(** [Kitchen::serveDish] *)
Definition serveDish (dish_to_remove : Dish) (k : Kitchen) : option (bool * Kitchen) :=
  if bool_decide (getCurrentSize k = 0%nat) then Some (false, k)
  else serveDish_loop dish_to_remove k 0 (getCurrentSize k).

(** The loop of [Kitchen::dietaryAdjustment]: the object each live slot
    points to is transformed in place. *)
Fixpoint dietaryAdjustment_loop (request : DietaryRequest) (k : Kitchen) (i n : nat)
    : option Kitchen :=
  match n with
  | O => Some k
  | S n' =>
      p ← items_ k !! i;
      a ← p;
      x ← deref (heap k) p;
      let k := mkKitchen (<[a := Some (dietaryAccommodations request x)]> (heap k))
                         (items_ k) (item_count_ k)
                         (total_prep_time_ k) (count_elaborate_ k) in
      dietaryAdjustment_loop request k (S i) n'
  end.

(** [Kitchen::dietaryAdjustment] *)
Definition dietaryAdjustment (request : DietaryRequest) (k : Kitchen) : option Kitchen :=
  dietaryAdjustment_loop request k 0 (getCurrentSize k).

(** The loop of [Kitchen::releaseDishesBelowPrepTime].  The bound [num] is
    read once before the loop, so [n] counts down from the size at entry
    while [serveDish] shrinks the bag. *)
Fixpoint release_loop (prep_time : Z) (k : Kitchen) (count : Z) (i n : nat)
    : option (Z * Kitchen) :=
  match n with
  | O => Some (count, k)
  | S n' =>
      x ← dish_at k i;
      if getPrepTime x <? prep_time then
        r ← serveDish x k;
        release_loop prep_time r.2 (wrap (count + 1)) (S i) n'
      else release_loop prep_time k count (S i) n'
  end.

(** [Kitchen::releaseDishesBelowPrepTime] *)
Definition releaseDishesBelowPrepTime (prep_time : Z) (k : Kitchen) : option (Z * Kitchen) :=
  release_loop prep_time k 0 0 (getCurrentSize k).

(** [round(num / den)] for a positive [den]: the nearest integer, halfway
    cases away from zero, as C's [round] does. *)
Definition round_half_away (num den : Z) : Z :=
  if 0 <=? num then (2 * num + den) / (2 * den)
  else - ((2 * (- num) + den) / (2 * den)).

(** The summing loop of [Kitchen::calculateAvgPrepTime]. *)
Fixpoint sum_loop (k : Kitchen) (total : Z) (i n : nat) : option Z :=
  match n with
  | O => Some total
  | S n' => x ← dish_at k i; sum_loop k (total + getPrepTime x) (S i) n'
  end.

(** [Kitchen::calculateAvgPrepTime].  The local accumulator is a [double];
    the sum of at most [capacity] values of type [int] and its quotient by
    the size are taken exactly here.  (A binary64 sum of integers is exact
    below [2^53], and the binary64 quotient of two such integers lies on the
    same side of every half-integer as the exact one as long as the divisor
    is below [2^21].)  [calculateAvgPrepTime_binary64] below evaluates the
    same loop in binary64 arithmetic. *)
Definition calculateAvgPrepTime (k : Kitchen) : option Z :=
  if bool_decide (getCurrentSize k = 0%nat) then Some 0
  else
    total ← sum_loop k 0 0 (getCurrentSize k);
    Some (round_half_away total (Z.of_nat (getCurrentSize k))).

(** *** The same function in binary64 arithmetic *)

Definition b64_of_int (z : Z) : spec_float := binary_normalize 53 1024 z 0 false.

(** C's [round] on a binary64 value, converted to [int]; [0] stands for the
    results that are not finite. *)
Definition b64_round (f : spec_float) : Z :=
  match f with
  | S754_finite s m e =>
      let r := match e with
               | Z0 => Zpos m
               | Zpos e' => Zpos m * 2 ^ Zpos e'
               | Zneg e' => (2 * Zpos m + 2 ^ Zpos e') / (2 * 2 ^ Zpos e')
               end in
      if s then - r else r
  | _ => 0
  end.

Fixpoint sum_loop_binary64 (k : Kitchen) (total : spec_float) (i n : nat)
    : option spec_float :=
  match n with
  | O => Some total
  | S n' =>
      x ← dish_at k i;
      sum_loop_binary64 k (SFadd 53 1024 total (b64_of_int (getPrepTime x))) (S i) n'
  end.

Definition calculateAvgPrepTime_binary64 (k : Kitchen) : option Z :=
  if bool_decide (getCurrentSize k = 0%nat) then Some 0
  else
    total ← sum_loop_binary64 k (b64_of_int 0) 0 (getCurrentSize k);
    Some (b64_round (SFdiv 53 1024 total (b64_of_int (Z.of_nat (getCurrentSize k))))).

(** ** Well-formed and reachable kitchens *)

(** The pointers in the live part of the array. *)
Definition live_slots (k : Kitchen) : list (option addr) :=
  take (item_count_ k) (items_ k).

(** The dishes currently contained, in array order; defined when every live
    slot points to a live object. *)
Definition contents (k : Kitchen) : option (list Dish) :=
  mapM (deref (heap k)) (live_slots k).

(** The size is within the capacity, and the live slots hold pairwise
    distinct pointers to live objects. *)
Definition wf (k : Kitchen) : Prop :=
  (item_count_ k <= length (items_ k))%nat /\
  NoDup (live_slots k) /\
  Forall (fun p => is_Some (deref (heap k) p)) (live_slots k).

#[global] Instance wf_dec k : Decision (wf k).
Proof. unfold wf. apply _. Defined.

(** [newOrder(new D(d))]: the kitchen takes ownership of a fresh object. *)
Definition place_order (d : Dish) (k : Kitchen) : option (bool * Kitchen) :=
  let '(p, k) := new_dish d k in newOrder p k.

(** Kitchens built from an empty one by [newOrder] on fresh objects and
    [serveDish] on arbitrary dishes. *)
Inductive reachable (capacity : nat) : Kitchen -> Prop :=
  | reach_new : reachable capacity (Kitchen_new capacity)
  | reach_order k d b k' :
      reachable capacity k -> place_order d k = Some (b, k') -> reachable capacity k'
  | reach_serve k d b k' :
      reachable capacity k -> serveDish d k = Some (b, k') -> reachable capacity k'.

Definition sum_prep_time (ds : list Dish) : Z :=
  foldr (fun d acc => getPrepTime d + acc) 0 ds.

Definition count_elaborate (ds : list Dish) : nat :=
  length (filter (fun d => is_elaborate d = true) ds).

(** ** Auxiliary notions used in the statements *)

(** The replacements a substitution loop has not used yet. *)
Definition unused (r1 r2 : string) (st : scan) : list string :=
  (if used_first st then [] else [r1]) ++ (if used_second st then [] else [r2]).

(** What [ArrayBag::remove] leaves in the live part when it removes index
    [i]: the last element takes the place of the removed one. *)
Definition swap_remove {A} (i : nat) (l : list A) : list A :=
  match l !! (length l - 1)%nat with
  | Some y => take (length l - 1) (<[i := y]> l)
  | None => l
  end.

(** The state [serveDish] produces once it has found the dish [x] through
    the pointer [p]: bookkeeping, [delete], [remove]. *)
Definition take_out (k : Kitchen) (p : option addr) (x : Dish) : Kitchen :=
  let k := set_total_prep_time (wrap (total_prep_time_ k - getPrepTime x)) k in
  let k := if is_elaborate x
           then set_count_elaborate (wrap (count_elaborate_ k - 1)) k else k in
  let k := delete_dish p k in
  (remove p k).2.

(** Repeated [newOrder(new D(d))], one call per dish of the list. *)
Fixpoint place_orders (ds : list Dish) (k : Kitchen) : option Kitchen :=
  match ds with
  | [] => Some k
  | d :: ds' => r ← place_order d k; place_orders ds' r.2
  end.

(** The running totals agree with the dishes [ds]. *)
Definition totals_agree (k : Kitchen) (ds : list Dish) : Prop :=
  total_prep_time_ k = wrap (sum_prep_time ds) /\
  count_elaborate_ k = wrap (Z.of_nat (count_elaborate ds)).

(** The kitchen of the given capacity after one [newOrder] per dish. *)
Definition kitchen_of (capacity : nat) (ds : list Dish) : Kitchen :=
  default (Kitchen_new capacity) (place_orders ds (Kitchen_new capacity)).

(** The state of the loop of [releaseDishesBelowPrepTime] before iteration
    [i], for a kitchen [k0] holding the dishes [ds0] at entry: the slots from
    [i] on are those of the kitchen at entry, the contained dishes are the
    kept ones among the first [i] and all the later ones, and every live
    pointer is one of the entry, still pointing to its dish. *)
Definition release_inv (prep_time : Z) (k0 : Kitchen) (ds0 : list Dish)
    (i : nat) (count : Z) (k : Kitchen) : Prop :=
  wf k /\
  (forall j, (i <= j)%nat -> items_ k !! j = items_ k0 !! j) /\
  (exists ds, contents k = Some ds /\
     ds ≡ₚ filter (fun d => prep_time <= getPrepTime d) (take i ds0) ++ drop i ds0) /\
  (forall p d, p ∈ live_slots k -> deref (heap k) p = Some d ->
     exists j0, live_slots k0 !! j0 = Some p /\ ds0 !! j0 = Some d) /\
  count = wrap (Z.of_nat (length (filter (fun d => getPrepTime d < prep_time) (take i ds0)))).

(** The attributes no dietary transform writes: the shared ones other than
    the ingredient list, and the enumeration member of each class. *)
Inductive class_tag :=
  | ServedAs (s : ServingStyle)
  | CookedBy (m : CookingMethod)
  | Tastes (f : FlavorProfile).

Definition untouched (d : Dish) : string * Z * spec_float * CuisineType * class_tag :=
  (name_ (base d), prep_time_ (base d), price_ (base d), cuisine_type_ (base d),
   match d with
   | AnAppetizer a => ServedAs (serving_style_ a)
   | AMainCourse m => CookedBy (cooking_method_ m)
   | ADessert s => Tastes (flavor_profile_ s)
   end).

(** ** Concrete dishes and kitchens used below *)

Definition plain_base (name : string) (ingredients : list string) (prep_time : Z) : DishBase :=
  mkBase name ingredients prep_time (S754_zero false) OTHER.

Definition skewers : Appetizer :=
  mkAppetizer (plain_base "Skewers" ["Chicken"; "Rice"; "Shrimp"; "Beef"] 25)
              PLATED 4 false.

Definition custard : Dessert :=
  mkDessert (plain_base "Custard" ["Milk"; "Sugar"; "Eggs"] 30) SWEET 8 true.

Definition only_vegetarian : DietaryRequest :=
  mkRequest true false false false false false.

Definition nut_free_low_sugar_vegan : DietaryRequest :=
  mkRequest false true false true false true.

Definition cuisine_tags : list string :=
  ["ITALIAN"; "MEXICAN"; "CHINESE"; "INDIAN"; "AMERICAN"; "FRENCH"]%string.
Definition serving_style_tags : list string :=
  ["PLATED"; "BUFFET"; "FAMILY_STYLE"]%string.
Definition cooking_method_tags : list string :=
  ["GRILLED"; "BAKED"; "BOILED"; "FRIED"; "STEAMED"; "RAW"]%string.
Definition flavor_profile_tags : list string :=
  ["SWEET"; "BITTER"; "SOUR"; "SALTY"; "UMAMI"]%string.

Definition only_nut_free : DietaryRequest :=
  mkRequest false false false true false false.

Definition side_order (name : string) (prep_time : Z) : Dish :=
  AnAppetizer (mkAppetizer (plain_base name ["Bread"] prep_time) PLATED 0 true).

Definition toast : Dish :=
  AnAppetizer (mkAppetizer (plain_base "Toast" ["Bread"; "Butter"] 5) PLATED 0 true).

Definition affogato : Dish :=
  ADessert (mkDessert (plain_base "Affogato" ["Espresso"; "Ice Cream"] 3) BITTER 4 false).

Definition stew : Dish :=
  AMainCourse
    (mkMainCourse
       (plain_base "Stew" ["Beef"; "Carrots"; "Potatoes"; "Onions"; "Stock"] 90)
       BOILED "Beef" [mkSideDish "Rice" GRAIN] false).

Definition praline_cake : Dish :=
  ADessert
    (mkDessert
       (plain_base "Praline Cake" ["Flour"; "Sugar"; "Butter"; "Eggs"; "Hazelnuts"] 75)
       SWEET 7 true).

(** A full kitchen of capacity 3; two of its dishes are elaborate. *)
Definition dinner : Kitchen := kitchen_of 3 [stew; ADessert custard; praline_cake].

(** [dinner] after the custard has been served. *)
Definition after_service : Kitchen :=
  default dinner (snd <$> serveDish (ADessert custard) dinner).

(** Three dishes with prep times 10, 20 and 21. *)
Definition tasting : Kitchen :=
  kitchen_of 4 [side_order "Crostini" 10; side_order "Bruschetta" 20;
                side_order "Focaccia" 21].

(** Three quick dishes, the same toast ordered twice. *)
Definition rush_hour : Kitchen := kitchen_of 5 [affogato; toast; toast].

(** An order with the longest prep time an [int] holds, followed by an
    order of one minute. *)
Definition long_braise : Dish := side_order "Braise" INT_MAX.

Definition overtime : Kitchen := kitchen_of 2 [long_braise; side_order "Garnish" 1].

(** A request for vegetarian and gluten-free at once, and an appetizer with
    one ingredient of each list. *)
Definition vegetarian_gluten_free : DietaryRequest :=
  mkRequest true false true false false false.

Definition chicken_sandwich : Appetizer :=
  mkAppetizer (plain_base "Chicken Sandwich" ["Chicken"; "Bread"; "Rice"] 15)
              PLATED 1 false.

(** ** Further members of [Kitchen] *)

(** [Kitchen::getPrepTimeSum] *)
Definition getPrepTimeSum (k : Kitchen) : Z :=
  if bool_decide (getCurrentSize k = 0%nat) then 0 else total_prep_time_ k.

(** [Kitchen::elaborateDishCount] *)
Definition elaborateDishCount (k : Kitchen) : Z :=
  if bool_decide (getCurrentSize k = 0%nat) || bool_decide (count_elaborate_ k = 0)
  then 0 else count_elaborate_ k.

(** [Dish::getCuisineType] returns the cuisine as text.  [Dish.cpp] is not
    among the sources, so the text of each enumeration member is a
    parameter, [cuisine_name], of the two functions that compare it. *)

(** The loop of [Kitchen::tallyCuisineTypes]. *)
Fixpoint tally_loop (cuisine_name : CuisineType -> string) (cuisine_type : string)
    (k : Kitchen) (count : Z) (i n : nat) : option Z :=
  match n with
  | O => Some count
  | S n' =>
      x ← dish_at k i;
      if String.eqb (cuisine_name (getCuisine x)) cuisine_type
      then tally_loop cuisine_name cuisine_type k (wrap (count + 1)) (S i) n'
      else tally_loop cuisine_name cuisine_type k count (S i) n'
  end.

(** [Kitchen::tallyCuisineTypes] *)
Definition tallyCuisineTypes (cuisine_name : CuisineType -> string)
    (cuisine_type : string) (k : Kitchen) : option Z :=
  tally_loop cuisine_name cuisine_type k 0 0 (getCurrentSize k).

(** The loop of [Kitchen::releaseDishesOfCuisineType].  Unlike the loop of
    [releaseDishesBelowPrepTime], its bound is [getCurrentSize()], read
    again before every iteration.  [fuel] bounds the number of iterations;
    the index grows and the size does not, so the size at entry is
    enough. *)
Fixpoint releaseCuisine_loop (cuisine_name : CuisineType -> string)
    (cuisine_type : string) (k : Kitchen) (count : Z) (i fuel : nat)
    : option (Z * Kitchen) :=
  match fuel with
  | O => Some (count, k)
  | S fuel' =>
      if bool_decide (i < getCurrentSize k)%nat then
        x ← dish_at k i;
        if String.eqb (cuisine_name (getCuisine x)) cuisine_type then
          r ← serveDish x k;
          releaseCuisine_loop cuisine_name cuisine_type r.2 (wrap (count + 1)) (S i) fuel'
        else releaseCuisine_loop cuisine_name cuisine_type k count (S i) fuel'
      else Some (count, k)
  end.

(** [Kitchen::releaseDishesOfCuisineType] *)
Definition releaseDishesOfCuisineType (cuisine_name : CuisineType -> string)
    (cuisine_type : string) (k : Kitchen) : option (Z * Kitchen) :=
  releaseCuisine_loop cuisine_name cuisine_type k 0 0 (getCurrentSize k).

(** The dishes of [ds] whose cuisine reads [cuisine_type]. *)
Definition of_cuisine (cuisine_name : CuisineType -> string) (cuisine_type : string)
    (ds : list Dish) : list Dish :=
  filter (fun d => cuisine_name (getCuisine d) = cuisine_type) ds.

(** The seven texts [Kitchen::kitchenReport] passes to [tallyCuisineTypes],
    in its order. *)
Definition report_labels : list string :=
  ["ITALIAN"; "MEXICAN"; "CHINESE"; "INDIAN"; "AMERICAN"; "FRENCH"; "OTHER"]%string.

(** The seven tallies [Kitchen::kitchenReport] prints, one call of
    [tallyCuisineTypes] for each text. *)
Definition kitchenReport_tallies (cuisine_name : CuisineType -> string) (k : Kitchen)
    : option (list Z) :=
  mapM (fun label => tallyCuisineTypes cuisine_name label k) report_labels.

(** ** Reading a kitchen from a file *)

(** The loop of [Kitchen::split], with [std::getline(ss, token, delimiter)]
    unfolded into single characters: [token] is what the current [getline]
    call has read so far and [extracted] tells whether it has consumed any
    character.  A call that reaches the end of the text without consuming
    anything fails and ends the loop; a call that stops at the end of the
    text after consuming something succeeds and its token is pushed. *)
Fixpoint split_loop (delimiter : ascii) (str : string) (token : string)
    (extracted : bool) : list string :=
  match str with
  | EmptyString => if extracted then [token] else []
  | String c rest =>
      if Ascii.eqb c delimiter
      then token :: split_loop delimiter rest "" false
      else split_loop delimiter rest (token +:+ String c "") true
  end.

(** [Kitchen::split] *)
Definition split (str : string) (delimiter : ascii) : list string :=
  split_loop delimiter str "" false.

(** The tokens written out with the delimiter between them. *)
Fixpoint join (delimiter : ascii) (tokens : list string) : string :=
  match tokens with
  | [] => ""
  | [t] => t
  | t :: rest => t +:+ String delimiter (join delimiter rest)
  end.

(** Whether a character occurs in a text, and how often. *)
Fixpoint has_char (c : ascii) (s : string) : bool :=
  match s with
  | EmptyString => false
  | String c' rest => Ascii.eqb c' c || has_char c rest
  end.

Fixpoint count_char (c : ascii) (s : string) : nat :=
  match s with
  | EmptyString => 0
  | String c' rest => (if Ascii.eqb c' c then 1 else 0) + count_char c rest
  end.

(** The body of the reading loop of [Kitchen::Kitchen(filename)] for one
    line.  [stoi] and [stod] are the standard conversions, with [None] for a
    thrown exception; the [catch] clause then goes on with the next line,
    as the size test does for a line of fewer than seven fields.  Reading
    [additional_attrs[i]] beyond the end of the vector is undefined
    ([None]).  A main course is created with no side dishes. *)
Definition process_line (stoi : string -> option Z) (stod : string -> option spec_float)
    (line : string) (k : Kitchen) : option Kitchen :=
  match split line "," with
  | dish_type :: name :: t2 :: t3 :: t4 :: t5 :: t6 :: _ =>
      let ingredients := split t2 ";" in
      match stoi t3 with
      | None => Some k
      | Some prep_time =>
          match stod t4 with
          | None => Some k
          | Some price =>
              let cuisine_type := stringToCuisineType t5 in
              let additional_attrs := split t6 ";" in
              let base := mkBase name ingredients prep_time price cuisine_type in
              if String.eqb dish_type "APPETIZER" then
                a0 ← additional_attrs !! 0%nat;
                a1 ← additional_attrs !! 1%nat;
                match stoi a1 with
                | None => Some k
                | Some spiciness =>
                    a2 ← additional_attrs !! 2%nat;
                    snd <$> place_order
                      (AnAppetizer (mkAppetizer base (stringToServingStyle a0) spiciness
                                                (String.eqb a2 "true"))) k
                end
              else if String.eqb dish_type "MAINCOURSE" then
                a0 ← additional_attrs !! 0%nat;
                a1 ← additional_attrs !! 1%nat;
                a2 ← additional_attrs !! 2%nat;
                snd <$> place_order
                  (AMainCourse (mkMainCourse base (stringToCookingMethod a0) a1 []
                                             (String.eqb a2 "true"))) k
              else if String.eqb dish_type "DESSERT" then
                a0 ← additional_attrs !! 0%nat;
                a1 ← additional_attrs !! 1%nat;
                match stoi a1 with
                | None => Some k
                | Some sweetness =>
                    a2 ← additional_attrs !! 2%nat;
                    snd <$> place_order
                      (ADessert (mkDessert base (stringToFlavorProfile a0) sweetness
                                           (String.eqb a2 "true"))) k
                end
              else Some k
          end
      end
  | _ => Some k
  end.

(** The reading loop over the lines that follow the header. *)
Fixpoint load_lines (stoi : string -> option Z) (stod : string -> option spec_float)
    (lines : list string) (k : Kitchen) : option Kitchen :=
  match lines with
  | [] => Some k
  | line :: rest => k' ← process_line stoi stod line k; load_lines stoi stod rest k'
  end.

(** [Kitchen::Kitchen(filename)], for a bag of the given capacity.  The file
    is its text, or [None] when it cannot be opened; the lines that
    [std::getline] delivers are the tokens of the text split at newlines,
    and the first of them is read and dropped. *)
Definition Kitchen_from_file (capacity : nat) (stoi : string -> option Z)
    (stod : string -> option spec_float) (file : option string) : option Kitchen :=
  match file with
  | None => Some (Kitchen_new capacity)
  | Some text =>
      load_lines stoi stod (tail (split text "010")) (Kitchen_new capacity)
  end.

(** A record written out: seven fields separated by commas, the ingredients
    and the three class-specific attributes separated by semicolons. *)
Definition record_line (dish_type name : string) (ingredients : list string)
    (prep_time price cuisine : string) (a0 a1 a2 : string) : string :=
  join "," [dish_type; name; join ";" ingredients; prep_time; price; cuisine;
            join ";" [a0; a1; a2]].

(** No comma and no semicolon. *)
Definition plain (t : string) : Prop :=
  has_char "," t = false /\ has_char ";" t = false.

(** ** The ingredient list after a call

    What [dietaryAccommodations] of each class leaves of an ingredient
    list, as a function of the request. *)

Definition appetizer_ingredients (request : DietaryRequest) (l : list string) : list string :=
  let l := if vegetarian request
           then bounded_substitution non_vegetarian ["Beans"; "Mushrooms"]%string l else l in
  if gluten_free request then filter (fun x => x ∉ gluten_containing) l else l.

Definition main_course_ingredients (request : DietaryRequest) (l : list string) : list string :=
  let l := if vegetarian request
           then bounded_substitution non_vegetarian ["Beans"; "Mushrooms"]%string l else l in
  if vegan request then filter (fun x => x ∉ dairy_and_eggs) l else l.

Definition dessert_ingredients (request : DietaryRequest) (l : list string) : list string :=
  if vegan request then
    if nut_free request then []
    else bounded_substitution dairy_and_eggs ["Almond Milk"; "Flax Egg"]%string l
  else if nut_free request then filter (fun x => x ∉ nuts) l else l.


(** ** Further concrete values *)

Definition only_vegan : DietaryRequest :=
  mkRequest false true false false false false.

Definition only_gluten_free : DietaryRequest :=
  mkRequest false false true false false false.

Definition bruschetta : Appetizer :=
  mkAppetizer (plain_base "Bruschetta" ["Bread"; "Tomato"; "Bacon"] 10) PLATED 1 false.

Definition carbonara : MainCourse :=
  mkMainCourse (plain_base "Carbonara" ["Pasta"; "Bacon"; "Eggs"; "Cheese"] 25)
               BOILED "Pork"
               [mkSideDish "Garlic Bread" BREAD; mkSideDish "Salad" SALAD] false.

Definition praline : Dessert :=
  mkDessert (plain_base "Praline" ["Sugar"; "Hazelnuts"; "Cream"] 20) SWEET 6 true.

(** The seven texts [kitchenReport] asks [tallyCuisineTypes] for. *)
Definition cuisine_label (c : CuisineType) : string :=
  match c with
  | ITALIAN => "ITALIAN"
  | MEXICAN => "MEXICAN"
  | CHINESE => "CHINESE"
  | INDIAN => "INDIAN"
  | AMERICAN => "AMERICAN"
  | FRENCH => "FRENCH"
  | OTHER => "OTHER"
  end.

(** Stand-ins for [stoi] and [stod] in the examples: plain decimal numerals
    only. *)
Definition digit_value (c : ascii) : option Z :=
  let n := Z.of_nat (nat_of_ascii c) in
  if (48 <=? n) && (n <=? 57) then Some (n - 48) else None.

Fixpoint decimal_from (acc : Z) (s : string) : option Z :=
  match s with
  | EmptyString => Some acc
  | String c rest => v ← digit_value c; decimal_from (10 * acc + v) rest
  end.

Definition decimal (s : string) : option Z :=
  if String.eqb s "" then None else decimal_from 0 s.

Definition whole_price (s : string) : option spec_float := b64_of_int <$> decimal s.

(** A file of a header and four lines: two records, a line that is too
    short, and a record of an unknown dish type. *)
Definition pantry_file : string :=
  join "010"
    ["DishType,Name,Ingredients,PrepTime,Price,Cuisine,Attributes";
     "APPETIZER,Bruschetta,Bread;Tomato,10,7,ITALIAN,PLATED;2;true";
     "torn,line";
     "SOUP,Minestrone,Beans;Pasta,40,6,ITALIAN,HOT;1;true";
     "DESSERT,Custard,Milk;Sugar;Eggs,30,5,FRENCH,SWEET;8;false"]%string.

Definition pantry : Kitchen :=
  default (Kitchen_new 4) (Kitchen_from_file 4 decimal whole_price (Some pantry_file)).

(** [dinner] after a nut-free adjustment. *)
Definition dinner_nut_free : Kitchen :=
  default dinner (dietaryAdjustment only_nut_free dinner).

(** * Properties of the dish transforms *)

Section Scans.

Lemma is_listed_elem_of ingredient names :
  is_listed ingredient names = bool_decide (ingredient ∈ names).
Proof.
  induction names as [|n names IH].
  - symmetry. apply bool_decide_eq_false_2. apply not_elem_of_nil.
  - cbn [is_listed]. destruct (String.eqb_spec ingredient n) as [->|Hne].
    + symmetry. apply bool_decide_eq_true_2. left.
    + rewrite IH. apply bool_decide_ext. rewrite elem_of_cons. tauto.
Qed.

(** A removal pass is a filter. *)
Lemma drop_listed_filter names ingredients :
  drop_listed names ingredients = filter (fun x => x ∉ names) ingredients.
Proof.
  unfold drop_listed.
  enough (forall acc,
    fold_left (fun acc ingredient =>
                 if negb (is_listed ingredient names) then acc ++ [ingredient] else acc)
              ingredients acc = acc ++ filter (fun x => x ∉ names) ingredients) as H
    by apply (H []).
  induction ingredients as [|x l IH]; intros acc; simpl.
  - by rewrite app_nil_r.
  - rewrite IH, is_listed_elem_of. rewrite filter_cons.
    case_bool_decide; case_decide; try done; simpl.
    by rewrite <- app_assoc.
Qed.

Variables (names : list string) (r1 r2 : string).

Lemma substitute_step_spec st x :
  substitute_step names r1 r2 st x =
    if bool_decide (x ∈ names) then
      if negb (used_first st)
      then mkScan (new_ingredients st ++ [r1]) true (used_second st)
      else if negb (used_second st)
           then mkScan (new_ingredients st ++ [r2]) (used_first st) true
           else st
    else push_back x st.
Proof.
  unfold substitute_step. rewrite <- is_listed_elem_of.
  induction names as [|n l IH]; simpl; [done|].
  destruct (String.eqb x n); [done|]. apply IH.
Qed.

Lemma substitute_fold ingredients st :
  new_ingredients (fold_left (substitute_step names r1 r2) ingredients st) =
  new_ingredients st ++ bounded_substitution names (unused r1 r2 st) ingredients.
Proof.
  revert st. induction ingredients as [|x l IH]; intros st; simpl.
  - by rewrite app_nil_r.
  - rewrite IH, substitute_step_spec. unfold unused.
    case_bool_decide; [|by simpl; rewrite <- app_assoc].
    destruct st as [acc [] []]; simpl; try done; by rewrite <- app_assoc.
Qed.

(** The loops of the source compute the bounded substitution of the
    specification, appended to the vector they start from. *)
Lemma substitute_from_bounded start ingredients :
  substitute_from start names r1 r2 ingredients =
  start ++ bounded_substitution names [r1; r2] ingredients.
Proof. unfold substitute_from. by rewrite substitute_fold. Qed.

End Scans.

(** C4. With [vegetarian] set, [Appetizer::dietaryAccommodations] sets the
    vegetarian flag and rebuilds the ingredient list as the bounded
    substitution of the non-vegetarian names by "Beans" and "Mushrooms"
    (first occurrence, second occurrence, later ones dropped, all other
    ingredients copied in order); when the request also asks for gluten-free,
    the gluten pass then filters that list.  Ingredients
    Chicken, Rice, Shrimp, Beef become Beans, Rice, Mushrooms. *)
Theorem appetizer_vegetarian_substitution (request : DietaryRequest) (self : Appetizer) :
  vegetarian request = true ->
  let after := AppetizerOps.dietaryAccommodations request self in
  let substituted :=
    bounded_substitution non_vegetarian ["Beans"; "Mushrooms"]%string
                         (ingredients_ (appetizer_base self)) in
  vegetarian_ after = true /\
  ingredients_ (appetizer_base after) =
    (if gluten_free request
     then filter (fun x => x ∉ gluten_containing) substituted
     else substituted) /\
  (ingredients_ (appetizer_base self) = ["Chicken"; "Rice"; "Shrimp"; "Beef"]%string ->
   ingredients_ (appetizer_base after) = ["Beans"; "Rice"; "Mushrooms"]%string).
Proof.
  intros Hveg after substituted.
  assert (ingredients_ (appetizer_base after) =
          (if gluten_free request
           then filter (fun x => x ∉ gluten_containing) substituted
           else substituted)) as Hing.
  { subst after substituted. unfold AppetizerOps.dietaryAccommodations.
    rewrite Hveg. destruct (low_sodium request), (gluten_free request); simpl;
      rewrite ?drop_listed_filter, substitute_from_bounded; done. }
  split; [|split].
  - subst after. unfold AppetizerOps.dietaryAccommodations.
    rewrite Hveg. by destruct (low_sodium request), (gluten_free request).
  - exact Hing.
  - intros Hself. rewrite Hing. subst substituted. rewrite Hself.
    by destruct (gluten_free request); vm_compute.
Qed.

Lemma appetizer_vegetarian_substitution_witness :
  vegetarian_ (AppetizerOps.dietaryAccommodations only_vegetarian skewers) = true /\
  ingredients_ (appetizer_base (AppetizerOps.dietaryAccommodations only_vegetarian skewers))
    = ["Beans"; "Rice"; "Mushrooms"]%string.
Proof.
  destruct (appetizer_vegetarian_substitution only_vegetarian skewers eq_refl)
    as (Hflag & _ & Hex).
  split; [exact Hflag | exact (Hex eq_refl)].
Defined.

(** Without the gluten pass the statement fails: on a request that also
    sets [gluten_free], "Bread", which is no non-vegetarian ingredient, is
    not copied through. *)
Lemma appetizer_vegetarian_substitution_counterexample :
  vegetarian vegetarian_gluten_free = true /\
  bounded_substitution non_vegetarian ["Beans"; "Mushrooms"]%string
    (ingredients_ (appetizer_base chicken_sandwich)) = ["Beans"; "Bread"; "Rice"]%string /\
  ingredients_ (appetizer_base
    (AppetizerOps.dietaryAccommodations vegetarian_gluten_free chicken_sandwich))
    = ["Beans"; "Rice"]%string /\
  ("Bread"%string ∉ non_vegetarian) /\
  ("Bread"%string ∉ ingredients_ (appetizer_base
     (AppetizerOps.dietaryAccommodations vegetarian_gluten_free chicken_sandwich))).
Proof.
  split; [done|]. split; [by vm_compute|]. split; [by vm_compute|].
  split; apply (bool_decide_unpack _); by vm_compute.
Qed.

(** C10. When a request sets both [nut_free] and [vegan],
    [Dessert::dietaryAccommodations] leaves the dessert with an empty
    ingredient list, whatever the ingredients were: the vegan pass walks the
    working vector right after clearing it. *)
Theorem dessert_nut_free_vegan_empties (request : DietaryRequest) (self : Dessert) :
  nut_free request = true ->
  vegan request = true ->
  ingredients_ (dessert_base (DessertOps.dietaryAccommodations request self)) = [].
Proof.
  intros Hnut Hvegan. unfold DessertOps.dietaryAccommodations.
  rewrite Hnut, Hvegan. by destruct (low_sugar request).
Qed.

Lemma dessert_nut_free_vegan_empties_witness :
  ingredients_ (dessert_base
    (DessertOps.dietaryAccommodations nut_free_low_sugar_vegan custard)) = [].
Proof.
  exact (dessert_nut_free_vegan_empties nut_free_low_sugar_vegan custard eq_refl eq_refl).
Defined.

(** C1, evaluated on the dessert of the specification's example (Milk,
    Sugar, Eggs; sweetness 8; contains nuts) with [nut_free], [low_sugar] and
    [vegan] set: the nut flag is cleared and the sweetness becomes 5, but the
    ingredient list comes out empty instead of Almond Milk, Sugar, Flax Egg. *)
Theorem dessert_all_flags_on_custard :
  let after := DessertOps.dietaryAccommodations nut_free_low_sugar_vegan custard in
  contains_nuts_ after = false /\
  sweetness_level_ after = 5 /\
  ingredients_ (dessert_base after) = [] /\
  ingredients_ (dessert_base after) <>
    bounded_substitution dairy_and_eggs ["Almond Milk"; "Flax Egg"]%string
      (filter (fun x => x ∉ nuts) (ingredients_ (dessert_base custard))).
Proof. vm_compute. repeat split. discriminate. Qed.

(** Without [nut_free] the vegan pass of a dessert does what the
    specification describes. *)
Lemma dessert_vegan_only (request : DietaryRequest) (self : Dessert) :
  nut_free request = false ->
  vegan request = true ->
  ingredients_ (dessert_base (DessertOps.dietaryAccommodations request self)) =
  bounded_substitution dairy_and_eggs ["Almond Milk"; "Flax Egg"]%string
                       (ingredients_ (dessert_base self)).
Proof.
  intros Hnut Hvegan. unfold DessertOps.dietaryAccommodations.
  rewrite Hnut, Hvegan. destruct (low_sugar request); simpl;
    by rewrite substitute_from_bounded.
Qed.

(** * Enum conversions *)

Ltac eqb_case str tag :=
  destruct (String.eqb_spec str tag) as [->|?];
  [exfalso; match goal with H : _ ∉ _ |- _ => apply H; repeat constructor end|].

(** C8. The four conversions are total functions, and a token outside the
    recognised tags is mapped to the fixed default: [OTHER] for cuisines,
    [PLATED] for serving styles, [GRILLED] for cooking methods and [SWEET]
    for flavor profiles. *)
Theorem unknown_tags_map_to_defaults (str : string) :
  (str ∉ cuisine_tags -> stringToCuisineType str = OTHER) /\
  (str ∉ serving_style_tags -> stringToServingStyle str = PLATED) /\
  (str ∉ cooking_method_tags -> stringToCookingMethod str = GRILLED) /\
  (str ∉ flavor_profile_tags -> stringToFlavorProfile str = SWEET).
Proof.
  repeat split; intros Hnot.
  - unfold stringToCuisineType, cuisine_tags in *.
    eqb_case str "ITALIAN"%string. eqb_case str "MEXICAN"%string.
    eqb_case str "CHINESE"%string. eqb_case str "INDIAN"%string.
    eqb_case str "AMERICAN"%string. eqb_case str "FRENCH"%string. done.
  - unfold stringToServingStyle, serving_style_tags in *.
    eqb_case str "PLATED"%string. eqb_case str "BUFFET"%string.
    eqb_case str "FAMILY_STYLE"%string. done.
  - unfold stringToCookingMethod, cooking_method_tags in *.
    eqb_case str "GRILLED"%string. eqb_case str "BAKED"%string.
    eqb_case str "BOILED"%string. eqb_case str "FRIED"%string.
    eqb_case str "STEAMED"%string. eqb_case str "RAW"%string. done.
  - unfold stringToFlavorProfile, flavor_profile_tags in *.
    eqb_case str "SWEET"%string. eqb_case str "BITTER"%string.
    eqb_case str "SOUR"%string. eqb_case str "SALTY"%string.
    eqb_case str "UMAMI"%string. done.
Qed.

Lemma unknown_tags_map_to_defaults_witness :
  stringToCuisineType "THAI" = OTHER /\
  stringToServingStyle "THAI" = PLATED /\
  stringToCookingMethod "THAI" = GRILLED /\
  stringToFlavorProfile "THAI" = SWEET.
Proof.
  destruct (unknown_tags_map_to_defaults "THAI") as (H1 & H2 & H3 & H4).
  split; [apply H1 | split; [apply H2 | split; [apply H3 | apply H4]]];
    apply (bool_decide_unpack _); vm_compute; exact I.
Defined.

(** * Properties of the kitchen *)

(** ** Wrap-around arithmetic *)

Lemma wrap_in_int z : in_int z -> wrap z = z.
Proof.
  unfold in_int, INT_MIN, INT_MAX, wrap. intros Hz.
  rewrite Z.mod_small by lia. lia.
Qed.

Lemma wrap_add_l a b : wrap (wrap a + b) = wrap (a + b).
Proof.
  unfold wrap. f_equal.
  replace ((a + 2 ^ 31) mod 2 ^ 32 - 2 ^ 31 + b + 2 ^ 31)
    with ((a + 2 ^ 31) mod 2 ^ 32 + b) by lia.
  rewrite Z.add_mod_idemp_l by lia. f_equal. lia.
Qed.

Lemma wrap_sub_l a b : wrap (wrap a - b) = wrap (a - b).
Proof.
  replace (wrap a - b) with (wrap a + - b) by lia.
  by rewrite wrap_add_l.
Qed.

(** ** Removing from an array by moving the last element *)

Lemma swap_remove_snoc {A} (i : nat) (l : list A) (y : A) :
  swap_remove i (l ++ [y]) = if decide (i = length l) then l else <[i := y]> l.
Proof.
  unfold swap_remove. rewrite length_app. simpl.
  replace (length l + 1 - 1)%nat with (length l) by lia.
  rewrite lookup_app_r, Nat.sub_diag by lia. simpl.
  case_decide as Hi.
  - subst. rewrite insert_app_r_alt, Nat.sub_diag by lia. simpl.
    by rewrite take_app_length.
  - destruct (decide (i < length l)%nat).
    + rewrite insert_app_l by done.
      rewrite take_app_length' by (by rewrite length_insert). done.
    + rewrite list_insert_ge by (rewrite length_app; simpl; lia).
      rewrite list_insert_ge by lia. by rewrite take_app_length.
Qed.

Lemma swap_remove_perm {A} (i : nat) (l : list A) (x : A) :
  l !! i = Some x -> l ≡ₚ x :: swap_remove i l.
Proof.
  intros Hi. destruct l as [|y l' _] using rev_ind; [done|].
  rewrite swap_remove_snoc. case_decide as Hd.
  - subst. rewrite lookup_app_r, Nat.sub_diag in Hi by lia.
    injection Hi as ->. by rewrite Permutation_app_comm.
  - assert (i < length l')%nat as Hlt.
    { apply lookup_lt_Some in Hi. rewrite length_app in Hi. simpl in Hi. lia. }
    rewrite lookup_app_l in Hi by done.
    rewrite (delete_Permutation l' i x Hi) at 1.
    rewrite Permutation_app_comm. simpl.
    rewrite Permutation_swap. f_equiv.
    destruct (list_elem_of_split_length l' i x Hi) as (l1 & l2 & -> & ->).
    rewrite insert_app_r_alt, Nat.sub_diag by lia. simpl.
    rewrite delete_middle. by rewrite Permutation_middle.
Qed.

(** ** The store *)

Lemma deref_Some h p d :
  deref h p = Some d <-> exists a, p = Some a /\ h !! a = Some (Some d).
Proof.
  unfold deref. destruct p as [a|]; simpl.
  - destruct (h !! a) as [[x|]|] eqn:Ha; simpl; split.
    all: try (intros [= <-]; eauto).
    all: try (intros (a' & [= <-] & Hd); congruence).
    all: done.
  - split; [done|]. by intros (a & ? & _).
Qed.

Lemma deref_app h h' p : is_Some (deref h p) -> deref (h ++ h') p = deref h p.
Proof.
  intros [d Hd]. rewrite Hd. apply deref_Some in Hd as (a & -> & Ha).
  apply deref_Some. exists a. split; [done|].
  rewrite lookup_app_l; [done|]. by eapply lookup_lt_Some.
Qed.

Lemma deref_fresh h p : is_Some (deref h p) -> p <> Some (length h).
Proof.
  intros [d Hd] ->. apply deref_Some in Hd as (a & [= <-] & Ha).
  apply lookup_lt_Some in Ha. lia.
Qed.

Lemma deref_insert_ne h a c p : p <> Some a -> deref (<[a := c]> h) p = deref h p.
Proof.
  intros Hne. unfold deref. destruct p as [b|]; simpl; [|done].
  rewrite list_lookup_insert_ne; [done|]. congruence.
Qed.

Lemma deref_insert_eq h a x d :
  deref h (Some a) = Some x -> deref (<[a := Some d]> h) (Some a) = Some d.
Proof.
  intros Hx. apply deref_Some in Hx as (a' & [= <-] & Ha).
  apply deref_Some. exists a. split; [done|].
  rewrite list_lookup_insert_eq; [done|]. by eapply lookup_lt_Some.
Qed.

(** ** Sums and counts over the contents *)

Lemma sum_prep_time_app ds1 ds2 :
  sum_prep_time (ds1 ++ ds2) = sum_prep_time ds1 + sum_prep_time ds2.
Proof. induction ds1 as [|d ds1 IH]; simpl; [done|]. rewrite IH. lia. Qed.

Lemma count_elaborate_app ds1 ds2 :
  count_elaborate (ds1 ++ ds2) = (count_elaborate ds1 + count_elaborate ds2)%nat.
Proof. unfold count_elaborate. by rewrite filter_app, length_app. Qed.

Lemma count_elaborate_cons d ds :
  count_elaborate (d :: ds) =
  ((if is_elaborate d then 1 else 0) + count_elaborate ds)%nat.
Proof.
  unfold count_elaborate. rewrite filter_cons.
  destruct (is_elaborate d); case_decide; done.
Qed.

Lemma count_elaborate_le ds : (count_elaborate ds <= length ds)%nat.
Proof. apply length_filter. Qed.

#[global] Instance sum_prep_time_perm : Proper ((≡ₚ) ==> (=)) sum_prep_time.
Proof.
  intros ds1 ds2 Hp. induction Hp; simpl; lia.
Qed.

#[global] Instance count_elaborate_perm : Proper ((≡ₚ) ==> (=)) count_elaborate.
Proof. intros ds1 ds2 Hp. unfold count_elaborate. by rewrite Hp. Qed.

(** ** The contents of a kitchen *)

Lemma contents_Some k ds :
  contents k = Some ds <->
  Forall2 (fun p d => deref (heap k) p = Some d) (live_slots k) ds.
Proof. apply mapM_Some. Qed.

Lemma wf_contents k : wf k -> exists ds, contents k = Some ds.
Proof.
  intros (_ & _ & Hall). apply (mapM_is_Some_2 (deref (heap k))). exact Hall.
Qed.

Lemma contents_length k ds :
  (item_count_ k <= length (items_ k))%nat ->
  contents k = Some ds -> length ds = item_count_ k.
Proof.
  intros Hle Hds. apply contents_Some, Forall2_length in Hds.
  unfold live_slots in Hds. rewrite length_take in Hds. lia.
Qed.

Lemma contents_lookup k ds i d :
  contents k = Some ds -> ds !! i = Some d -> dish_at k i = Some d.
Proof.
  intros Hds Hi. apply contents_Some in Hds.
  destruct (Forall2_lookup_r _ _ _ _ _ Hds Hi) as (p & Hp & Hd).
  unfold live_slots in Hp. apply lookup_take_Some in Hp as [Hp _].
  unfold dish_at. by rewrite Hp.
Qed.

(** ** [newOrder] on a fresh object *)

Lemma place_order_full d k :
  item_count_ k = length (items_ k) ->
  place_order d k = Some (false, (new_dish d k).2).
Proof.
  intros Hfull. unfold place_order, new_dish, newOrder, add. simpl.
  by rewrite bool_decide_eq_true_2.
Qed.

Lemma place_order_room d k :
  item_count_ k <> length (items_ k) ->
  place_order d k =
  Some (true,
        mkKitchen (heap k ++ [Some d])
                  (<[item_count_ k := Some (length (heap k))]> (items_ k))
                  (S (item_count_ k))
                  (wrap (total_prep_time_ k + getPrepTime d))
                  (if is_elaborate d then wrap (count_elaborate_ k + 1)
                   else count_elaborate_ k)).
Proof.
  intros Hroom. unfold place_order, new_dish, newOrder, add. simpl.
  rewrite bool_decide_eq_false_2 by done. simpl.
  unfold deref. simpl. rewrite lookup_app_r, Nat.sub_diag by lia. simpl.
  by destruct (is_elaborate d).
Qed.

Lemma place_order_contents d k ds b k' :
  wf k -> contents k = Some ds -> place_order d k = Some (b, k') ->
  wf k' /\
  contents k' = Some (if b then ds ++ [d] else ds) /\
  length (items_ k') = length (items_ k) /\
  total_prep_time_ k' =
    (if b then wrap (total_prep_time_ k + getPrepTime d) else total_prep_time_ k) /\
  count_elaborate_ k' =
    (if b && is_elaborate d then wrap (count_elaborate_ k + 1) else count_elaborate_ k).
Proof.
  intros (Hle & Hnd & Hall) Hds Hk'.
  assert (forall h', Forall2 (fun p d => deref (heap k ++ h') p = Some d) (live_slots k) ds)
    as Hext.
  { intros h'. apply contents_Some in Hds.
    eapply Forall2_impl; [exact Hds|]. intros p x Hx. simpl in Hx.
    rewrite deref_app; [done|]. by rewrite Hx. }
  destruct (decide (item_count_ k = length (items_ k))) as [Hfull|Hroom].
  - rewrite place_order_full in Hk' by done. injection Hk' as <- <-.
    unfold new_dish. simpl. repeat split; try done.
    + eapply Forall_impl; [exact Hall|]. intros p Hp. simpl.
      by rewrite deref_app.
    + apply contents_Some. apply Hext.
  - rewrite place_order_room in Hk' by done. injection Hk' as <- <-.
    assert (live_slots
              (mkKitchen (heap k ++ [Some d])
                 (<[item_count_ k := Some (length (heap k))]> (items_ k))
                 (S (item_count_ k))
                 (wrap (total_prep_time_ k + getPrepTime d))
                 (if is_elaborate d then wrap (count_elaborate_ k + 1)
                  else count_elaborate_ k))
            = live_slots k ++ [Some (length (heap k))]) as Hlive.
    { unfold live_slots. simpl.
      rewrite (take_S_r _ _ (Some (length (heap k)))).
      - by rewrite take_insert_ge by lia.
      - apply list_lookup_insert_eq. lia. }
    assert (deref (heap k ++ [Some d]) (Some (length (heap k))) = Some d) as Hnew.
    { apply deref_Some. eexists. split; [done|].
      by rewrite lookup_app_r, Nat.sub_diag by lia. }
    split; [|split; [|split; [|split]]].
    + unfold wf. rewrite Hlive. simpl. split; [|split].
      * rewrite length_insert. lia.
      * apply NoDup_app. split; [done|]. split; [|apply NoDup_singleton].
        intros p Hp Hp'. apply list_elem_of_singleton in Hp'. subst p.
        rewrite Forall_forall in Hall.
        by apply (deref_fresh (heap k) (Some (length (heap k)))); [apply Hall|].
      * apply Forall_app. split.
        -- eapply Forall_impl; [exact Hall|]. intros p Hp. simpl.
           by rewrite deref_app.
        -- apply Forall_singleton. by rewrite Hnew.
    + apply contents_Some. rewrite Hlive. simpl.
      apply Forall2_app; [apply Hext|]. by apply Forall2_cons.
    + simpl. by rewrite length_insert.
    + done.
    + done.
Qed.

(** ** [serveDish] *)

Lemma Forall2_swap_remove {A B} (R : A -> B -> Prop) i l k :
  Forall2 R l k -> Forall2 R (swap_remove i l) (swap_remove i k).
Proof.
  intros HR. unfold swap_remove.
  rewrite <- (Forall2_length _ _ _ HR).
  destruct (l !! (length l - 1)%nat) as [x|] eqn:Hl.
  - destruct (Forall2_lookup_l _ _ _ _ _ HR Hl) as (y & -> & Hxy).
    apply Forall2_take. by apply Forall2_insert.
  - destruct (k !! (length l - 1)%nat) as [y|] eqn:Hk; [|done].
    destruct (Forall2_lookup_r _ _ _ _ _ HR Hk) as (x & Hx & _). congruence.
Qed.

Lemma live_slots_swap_remove (items : list (option addr)) (n j : nat) :
  (j < n <= length items)%nat ->
  take (n - 1) (<[j := items !!! (n - 1)%nat]> items) = swap_remove j (take n items).
Proof.
  intros Hj. unfold swap_remove. rewrite length_take, Nat.min_l by lia.
  destruct (lookup_lt_is_Some_2 items (n - 1)) as [y Hy]; [lia|].
  rewrite lookup_take_lt, Hy by lia.
  rewrite (list_lookup_total_correct _ _ _ Hy).
  rewrite <- take_insert_lt by lia.
  rewrite take_take. f_equal. lia.
Qed.

Lemma take_out_spec k ds j a x :
  wf k -> contents k = Some ds ->
  items_ k !! j = Some (Some a) -> (j < item_count_ k)%nat -> ds !! j = Some x ->
  let k' := take_out k (Some a) x in
  wf k' /\
  contents k' = Some (swap_remove j ds) /\
  heap k' = <[a := None]> (heap k) /\
  items_ k' = <[j := items_ k !!! (item_count_ k - 1)%nat]> (items_ k) /\
  item_count_ k' = (item_count_ k - 1)%nat /\
  total_prep_time_ k' = wrap (total_prep_time_ k - getPrepTime x) /\
  count_elaborate_ k' =
    (if is_elaborate x then wrap (count_elaborate_ k - 1) else count_elaborate_ k).
Proof.
  intros (Hle & Hnd & Hall) Hds Hj Hlt Hx k'.
  assert (live_slots k !! j = Some (Some a)) as Hlj.
  { unfold live_slots. by rewrite lookup_take_lt. }
  assert (list_find (fun q => q = Some a) (take (item_count_ k) (items_ k))
          = Some (j, Some a)) as Hfind.
  { apply list_find_Some. split; [exact Hlj|]. split; [done|].
    intros i y Hi Hij ->. pose proof (NoDup_lookup _ _ _ _ Hnd Hi Hlj). lia. }
  assert (live_slots k' = swap_remove j (live_slots k)) as Hlive.
  { subst k'. unfold take_out, remove.
    destruct (is_elaborate x); simpl; rewrite Hfind; simpl;
      unfold live_slots; simpl; by apply live_slots_swap_remove. }
  assert (heap k' = <[a := None]> (heap k)) as Hheap.
  { subst k'. unfold take_out, remove.
    by destruct (is_elaborate x); simpl; rewrite Hfind. }
  pose proof (swap_remove_perm j (live_slots k) (Some a) Hlj) as Hperm.
  assert (NoDup (Some a :: swap_remove j (live_slots k))) as Hnd'
    by (by rewrite <- Hperm).
  apply NoDup_cons in Hnd' as [Hnotin Hnd'].
  assert (Forall2 (fun p d => deref (heap k') p = Some d)
                  (swap_remove j (live_slots k)) (swap_remove j ds)) as Hcont.
  { apply contents_Some in Hds.
    pose proof (Forall2_swap_remove _ j _ _ Hds) as HF.
    apply Forall2_same_length_lookup. split; [by eapply Forall2_length|].
    intros i p d Hp Hd. rewrite Hheap, deref_insert_ne.
    - apply (Forall2_lookup_lr _ _ _ _ _ _ HF Hp Hd).
    - intros ->. apply Hnotin. by eapply list_elem_of_lookup_2. }
  split; [|split; [|split; [|split; [|split; [|split]]]]].
  - unfold wf. rewrite Hlive. split; [|split].
    + subst k'. unfold take_out, remove.
      destruct (is_elaborate x); simpl; rewrite Hfind; simpl;
        rewrite length_insert; lia.
    + exact Hnd'.
    + apply Forall_forall. intros p Hp.
      apply list_elem_of_lookup_1 in Hp as [i Hi].
      destruct (Forall2_lookup_l _ _ _ _ _ Hcont Hi) as (d & _ & Hd).
      by rewrite Hd.
  - apply contents_Some. by rewrite Hlive.
  - exact Hheap.
  - subst k'. unfold take_out, remove.
    by destruct (is_elaborate x); simpl; rewrite Hfind.
  - subst k'. unfold take_out, remove.
    by destruct (is_elaborate x); simpl; rewrite Hfind.
  - subst k'. unfold take_out, remove.
    by destruct (is_elaborate x); simpl; rewrite Hfind.
  - subst k'. unfold take_out, remove.
    by destruct (is_elaborate x); simpl; rewrite Hfind.
Qed.

(** The scan either finds nothing from index [i] on, or stops at the first
    equal dish. *)
Lemma serveDish_loop_spec d k ds :
  (item_count_ k <= length (items_ k))%nat -> contents k = Some ds ->
  forall n i, (i + n = item_count_ k)%nat ->
    ((forall j x, (i <= j)%nat -> ds !! j = Some x -> x <> d) /\
     serveDish_loop d k i n = Some (false, k))
    \/
    (exists j a, (i <= j < item_count_ k)%nat /\
       items_ k !! j = Some (Some a) /\ ds !! j = Some d /\
       (forall j' x, (i <= j' < j)%nat -> ds !! j' = Some x -> x <> d) /\
       serveDish_loop d k i n = Some (true, take_out k (Some a) d)).
Proof.
  intros Hle Hds. pose proof (contents_length _ _ Hle Hds) as Hlen.
  induction n as [|n IH]; intros i Hin.
  - left. split; [|done]. intros j x Hij Hj.
    apply lookup_lt_Some in Hj. lia.
  - destruct (lookup_lt_is_Some_2 ds i) as [x Hx]; [lia|].
    pose proof Hds as HF. apply contents_Some in HF.
    destruct (Forall2_lookup_r _ _ _ _ _ HF Hx) as (p & Hp & Hd).
    unfold live_slots in Hp. apply lookup_take_Some in Hp as [Hp _].
    pose proof Hd as Hd'. apply deref_Some in Hd' as (a & -> & _).
    cbn [serveDish_loop]. rewrite Hp. cbn [mbind option_bind].
    rewrite Hd. cbn [mbind option_bind].
    unfold dish_eqb. case_bool_decide as Heq.
    + subst x. right. exists i, a. repeat split; try done; try lia.
    + destruct (IH (S i)) as [[Hnone Hres]|(j & b & Hj & Hjp & Hjd & Hfirst & Hres)];
        [lia| |].
      * left. split; [|done]. intros j y Hij Hj.
        destruct (decide (j = i)) as [->|]; [congruence|].
        apply (Hnone j); [lia|done].
      * right. exists j, b. repeat split; try done; try lia.
        intros j' y Hj' Hy. destruct (decide (j' = i)) as [->|]; [congruence|].
        apply (Hfirst j'); [lia|done].
Qed.

Lemma serveDish_absent d k ds :
  wf k -> contents k = Some ds -> d ∉ ds -> serveDish d k = Some (false, k).
Proof.
  intros (Hle & _ & _) Hds Hnot. unfold serveDish, getCurrentSize.
  case_bool_decide; [done|].
  destruct (serveDish_loop_spec d k ds Hle Hds (item_count_ k) 0)
    as [[_ Hres]|(j & a & _ & _ & Hj & _)]; [lia|done|].
  exfalso. apply Hnot. by eapply list_elem_of_lookup_2.
Qed.

Lemma serveDish_present d k ds :
  wf k -> contents k = Some ds -> d ∈ ds ->
  exists j a, (j < item_count_ k)%nat /\
    items_ k !! j = Some (Some a) /\ ds !! j = Some d /\
    (forall j' x, (j' < j)%nat -> ds !! j' = Some x -> x <> d) /\
    serveDish d k = Some (true, take_out k (Some a) d).
Proof.
  intros (Hle & _ & _) Hds Hin. unfold serveDish, getCurrentSize.
  pose proof (contents_length _ _ Hle Hds) as Hlen.
  case_bool_decide as Hz.
  { destruct ds; [by apply elem_of_nil in Hin|simpl in Hlen; lia]. }
  destruct (serveDish_loop_spec d k ds Hle Hds (item_count_ k) 0)
    as [[Hnone _]|(j & a & Hj & Hjp & Hjd & Hfirst & Hres)]; [lia| |].
  - apply list_elem_of_lookup_1 in Hin as [j Hj].
    by destruct (Hnone j d); [lia| |].
  - exists j, a. repeat split; try done; try lia.
    intros j' x Hj'. apply Hfirst. lia.
Qed.

(** [serveDish] is defined on every well-formed kitchen, and the kitchen it
    leaves is well-formed. *)
Lemma serveDish_contents d k ds :
  wf k -> contents k = Some ds ->
  exists b k', serveDish d k = Some (b, k') /\ wf k' /\
    length (items_ k') = length (items_ k) /\
    if b then
      exists j, ds !! j = Some d /\
        contents k' = Some (swap_remove j ds) /\
        total_prep_time_ k' = wrap (total_prep_time_ k - getPrepTime d) /\
        count_elaborate_ k' =
          (if is_elaborate d then wrap (count_elaborate_ k - 1)
           else count_elaborate_ k)
    else k' = k /\ d ∉ ds.
Proof.
  intros Hwf Hds. destruct (decide (d ∈ ds)) as [Hin|Hnot].
  - destruct (serveDish_present d k ds Hwf Hds Hin)
      as (j & a & Hj & Hjp & Hjd & _ & Hres).
    destruct (take_out_spec k ds j a d Hwf Hds Hjp Hj Hjd)
      as (Hwf' & Hc & _ & Hitems & _ & Ht & He).
    exists true, (take_out k (Some a) d).
    split; [done|]. split; [done|]. split.
    + rewrite Hitems. by rewrite length_insert.
    + by exists j.
  - exists false, k. by rewrite (serveDish_absent d k ds).
Qed.

(** ** Kitchens built by [newOrder] and [serveDish] *)

Lemma place_order_totals d k ds b k' :
  wf k -> contents k = Some ds -> totals_agree k ds ->
  place_order d k = Some (b, k') ->
  wf k' /\ length (items_ k') = length (items_ k) /\
  exists ds', contents k' = Some ds' /\ totals_agree k' ds'.
Proof.
  intros Hwf Hds [Ht He] Hk'.
  destruct (place_order_contents d k ds b k' Hwf Hds Hk')
    as (Hwf' & Hc & Hlen & Ht' & He').
  split; [done|]. split; [done|].
  eexists. split; [exact Hc|]. destruct b; simpl in *.
  - split.
    + rewrite Ht', Ht, wrap_add_l, sum_prep_time_app. simpl. f_equal. lia.
    + rewrite He', He, count_elaborate_app, count_elaborate_cons.
      change (count_elaborate []) with 0%nat.
      destruct (is_elaborate d).
      * rewrite wrap_add_l. f_equal. lia.
      * f_equal. lia.
  - split; congruence.
Qed.

Lemma serveDish_totals d k ds :
  wf k -> contents k = Some ds -> totals_agree k ds ->
  exists b k', serveDish d k = Some (b, k') /\
    wf k' /\ length (items_ k') = length (items_ k) /\
    exists ds', contents k' = Some ds' /\ totals_agree k' ds'.
Proof.
  intros Hwf Hds [Ht He].
  destruct (serveDish_contents d k ds Hwf Hds) as (b & k' & Hres & Hwf' & Hlen & Hb).
  exists b, k'. split; [done|]. split; [done|]. split; [done|].
  destruct b.
  - destruct Hb as (j & Hj & Hc & Ht' & He').
    exists (swap_remove j ds). split; [done|].
    pose proof (swap_remove_perm j ds d Hj) as Hperm.
    pose proof (sum_prep_time_perm _ _ Hperm) as Hsum. simpl in Hsum.
    pose proof (count_elaborate_perm _ _ Hperm) as Hcount.
    rewrite count_elaborate_cons in Hcount.
    split.
    + rewrite Ht', Ht, wrap_sub_l. f_equal. lia.
    + rewrite He', He. destruct (is_elaborate d).
      * rewrite wrap_sub_l. f_equal. lia.
      * f_equal. lia.
  - destruct Hb as [-> _]. by exists ds.
Qed.

Lemma Kitchen_new_wf capacity : wf (Kitchen_new capacity).
Proof.
  unfold wf, live_slots. simpl. split; [lia|].
  split; [apply NoDup_nil_2 | apply Forall_nil_2].
Qed.

Lemma reachable_invariant capacity k :
  reachable capacity k ->
  wf k /\ length (items_ k) = capacity /\
  exists ds, contents k = Some ds /\ totals_agree k ds.
Proof.
  induction 1 as [|k d b k' _ (Hwf & Hcap & ds & Hds & Hagree) Hstep
                  |k d b k' _ (Hwf & Hcap & ds & Hds & Hagree) Hstep].
  - split; [apply Kitchen_new_wf|]. split; [apply length_replicate|].
    exists []. by split.
  - destruct (place_order_totals d k ds b k' Hwf Hds Hagree Hstep)
      as (Hwf' & Hlen & Hex).
    split; [done|]. split; [congruence|done].
  - destruct (serveDish_totals d k ds Hwf Hds Hagree)
      as (b' & k'' & Hres & Hwf' & Hlen & Hex).
    rewrite Hstep in Hres. injection Hres as <- <-.
    split; [done|]. split; [congruence|done].
Qed.

(** Every kitchen that the two operations can build is well-formed. *)
Lemma reachable_wf capacity k : reachable capacity k -> wf k.
Proof. intros Hreach. by destruct (reachable_invariant capacity k Hreach). Qed.

(** C3. In every kitchen reached from the empty one by [newOrder] and
    [serveDish] calls, [total_prep_time_] is the sum of the prep times of
    the contained dishes and [count_elaborate_] is the number of contained
    dishes with at least 5 ingredients and a prep time of at least 60.  Both
    members are [int]s: the sum is the [int] sum, equal to the mathematical
    one whenever that fits an [int], and the count is exact for every
    capacity an [int] can express. *)
Theorem totals_track_contents (capacity : nat) (k : Kitchen) :
  reachable capacity k ->
  exists ds, contents k = Some ds /\
    total_prep_time_ k = wrap (sum_prep_time ds) /\
    (in_int (sum_prep_time ds) -> total_prep_time_ k = sum_prep_time ds) /\
    (Z.of_nat capacity <= INT_MAX ->
     count_elaborate_ k = Z.of_nat (count_elaborate ds)).
Proof.
  intros Hreach.
  destruct (reachable_invariant capacity k Hreach)
    as ((Hle & Hwf) & Hcap & ds & Hds & Ht & He).
  exists ds. split; [done|]. split; [done|]. split.
  - intros Hin. by rewrite Ht, wrap_in_int.
  - intros Hcapacity. rewrite He. apply wrap_in_int.
    pose proof (count_elaborate_le ds) as Hc.
    pose proof (contents_length k ds Hle Hds) as Hlen.
    unfold in_int, INT_MIN, INT_MAX in *. lia.
Qed.

(** C5. When no contained dish equals [d], [serveDish] returns false and
    the kitchen is exactly the one before the call: the same dishes, size,
    total prep time and elaborate count. *)
Theorem serveDish_not_found (k : Kitchen) (ds : list Dish) (d : Dish) :
  wf k -> contents k = Some ds -> d ∉ ds ->
  exists k', serveDish d k = Some (false, k') /\ k' = k /\
    contents k' = Some ds /\
    getCurrentSize k' = getCurrentSize k /\
    total_prep_time_ k' = total_prep_time_ k /\
    count_elaborate_ k' = count_elaborate_ k.
Proof.
  intros Hwf Hds Hnot. exists k.
  by rewrite (serveDish_absent d k ds).
Qed.

Lemma place_orders_size ds : forall k,
  (item_count_ k <= length (items_ k))%nat ->
  exists k', place_orders ds k = Some k' /\
    length (items_ k') = length (items_ k) /\
    item_count_ k' = Nat.min (item_count_ k + length ds) (length (items_ k)).
Proof.
  induction ds as [|d ds IH]; intros k Hle; simpl.
  - exists k. repeat split. lia.
  - destruct (decide (item_count_ k = length (items_ k))) as [Hfull|Hroom].
    + rewrite place_order_full by done. simpl.
      match goal with |- context [place_orders ds ?k1] =>
        destruct (IH k1) as (k' & -> & Hlen & Hsize) end; [done|].
      exists k'. cbn [new_dish snd item_count_ items_] in Hlen, Hsize.
      cbn [length]. repeat split; [done|lia].
    + rewrite place_order_room by done. simpl.
      match goal with |- context [place_orders ds ?k1] =>
        destruct (IH k1) as (k' & -> & Hlen & Hsize) end.
      { simpl. rewrite length_insert. lia. }
      exists k'. cbn [item_count_ items_] in Hlen, Hsize.
      rewrite length_insert in Hlen, Hsize.
      cbn [length]. repeat split; [done|lia].
Qed.

(** C6. After any sequence of [newOrder] calls on an empty kitchen of
    capacity [capacity] the size is the number of calls, capped at the
    capacity; once the size equals the capacity, the next [newOrder] returns
    false and leaves the kitchen as it was: size, total prep time and
    elaborate count included. *)
Theorem newOrder_on_full_kitchen (capacity : nat) (ds : list Dish) :
  exists k, place_orders ds (Kitchen_new capacity) = Some k /\
    getCurrentSize k = Nat.min (length ds) capacity /\
    (getCurrentSize k = capacity ->
     forall new_dish : addr, exists k',
       newOrder new_dish k = Some (false, k') /\ k' = k /\
       getCurrentSize k' = capacity /\
       total_prep_time_ k' = total_prep_time_ k /\
       count_elaborate_ k' = count_elaborate_ k).
Proof.
  destruct (place_orders_size ds (Kitchen_new capacity)) as (k & Hk & Hlen & Hsize).
  { simpl. lia. }
  simpl in Hlen, Hsize. rewrite length_replicate in Hlen, Hsize.
  exists k. split; [done|]. split; [done|].
  intros Hfull p. exists k. unfold newOrder, add.
  unfold getCurrentSize in Hfull.
  rewrite bool_decide_eq_true_2 by congruence. done.
Qed.

(** ** [dietaryAdjustment] *)

(** What no dietary transform touches. *)
Lemma dietaryAccommodations_frame request d :
  getPrepTime (dietaryAccommodations request d) = getPrepTime d /\
  getCuisine (dietaryAccommodations request d) = getCuisine d /\
  untouched (dietaryAccommodations request d) = untouched d.
Proof.
  destruct request as [[] [] [] [] [] []], d as [a|m|s]; done.
Qed.

Lemma contents_update k ds i a x y :
  wf k -> contents k = Some ds ->
  items_ k !! i = Some (Some a) -> (i < item_count_ k)%nat -> ds !! i = Some x ->
  let k' := mkKitchen (<[a := Some y]> (heap k)) (items_ k) (item_count_ k)
                      (total_prep_time_ k) (count_elaborate_ k) in
  wf k' /\ contents k' = Some (<[i := y]> ds).
Proof.
  intros (Hle & Hnd & Hall) Hds Hi Hlt Hx k'.
  assert (live_slots k !! i = Some (Some a)) as Hli.
  { unfold live_slots. by rewrite lookup_take_lt. }
  pose proof Hds as HF. apply contents_Some in HF.
  assert (deref (heap k) (Some a) = Some x) as Hax
    by apply (Forall2_lookup_lr _ _ _ _ _ _ HF Hli Hx).
  assert (Forall2 (fun p d => deref (heap k') p = Some d)
                  (live_slots k) (<[i := y]> ds)) as HF'.
  { apply Forall2_same_length_lookup. split.
    { rewrite length_insert. by eapply Forall2_length. }
    intros j p d Hp Hd. subst k'. simpl.
    destruct (decide (j = i)) as [->|Hne].
    - rewrite Hli in Hp. injection Hp as <-.
      rewrite list_lookup_insert_eq in Hd by (by eapply lookup_lt_Some).
      injection Hd as <-. by eapply deref_insert_eq.
    - rewrite list_lookup_insert_ne in Hd by done.
      rewrite deref_insert_ne.
      + apply (Forall2_lookup_lr _ _ _ _ _ _ HF Hp Hd).
      + intros ->. apply Hne. by eapply NoDup_lookup. }
  split.
  - split; [done|]. split; [done|].
    change (live_slots k') with (live_slots k).
    apply Forall_forall. intros p Hp.
    apply list_elem_of_lookup_1 in Hp as [j Hj].
    destruct (Forall2_lookup_l _ _ _ _ _ HF' Hj) as (d & _ & Hd).
    by rewrite Hd.
  - by apply contents_Some.
Qed.

Lemma dietaryAdjustment_loop_spec request n : forall i k ds,
  wf k -> contents k = Some ds -> (i + n = item_count_ k)%nat ->
  exists k', dietaryAdjustment_loop request k i n = Some k' /\ wf k' /\
    items_ k' = items_ k /\ item_count_ k' = item_count_ k /\
    total_prep_time_ k' = total_prep_time_ k /\
    count_elaborate_ k' = count_elaborate_ k /\
    contents k' = Some (take i ds ++ (dietaryAccommodations request <$> drop i ds)).
Proof.
  induction n as [|n IH]; intros i k ds Hwf Hds Hin.
  - exists k. pose proof Hwf as (Hle & _ & _).
    pose proof (contents_length _ _ Hle Hds) as Hlen.
    repeat split; try apply Hwf.
    rewrite drop_ge, take_ge by lia. simpl. by rewrite app_nil_r.
  - pose proof Hwf as (Hle & _ & _).
    pose proof (contents_length _ _ Hle Hds) as Hlen.
    destruct (lookup_lt_is_Some_2 ds i) as [x Hx]; [lia|].
    pose proof Hds as HF. apply contents_Some in HF.
    destruct (Forall2_lookup_r _ _ _ _ _ HF Hx) as (p & Hp & Hd).
    unfold live_slots in Hp. apply lookup_take_Some in Hp as [Hp Hlt].
    pose proof Hd as Hd'. apply deref_Some in Hd' as (a & -> & _).
    cbn [dietaryAdjustment_loop]. rewrite Hp. cbn [mbind option_bind].
    rewrite Hd. cbn [mbind option_bind].
    destruct (contents_update k ds i a x (dietaryAccommodations request x)
                Hwf Hds Hp Hlt Hx) as [Hwf1 Hds1].
    match goal with |- context [dietaryAdjustment_loop request ?k1] =>
      destruct (IH (S i) k1 _ Hwf1 Hds1) as (k' & -> & Hwf' & H1 & H2 & H3 & H4 & H5)
    end; [simpl; lia|].
    exists k'. split; [done|]. split; [done|].
    split; [done|]. split; [done|]. split; [done|]. split; [done|].
    rewrite H5. f_equal.
    rewrite (take_S_r (<[i := dietaryAccommodations request x]> ds) i
               (dietaryAccommodations request x))
      by (apply list_lookup_insert_eq; lia).
    rewrite take_insert_ge, drop_insert_lt by lia.
    rewrite (drop_S ds x i Hx). simpl. by rewrite <- app_assoc.
Qed.

(** C9. [dietaryAdjustment] changes no member of the kitchen itself: the
    array, the size, [total_prep_time_] and [count_elaborate_] are what they
    were; every contained dish is replaced, in place, by its transform,
    which has the same prep time and cuisine type (and name, price and
    class enumeration member).  Nothing recomputes
    [count_elaborate_], also when a transform shortens an ingredient
    list. *)
Theorem dietaryAdjustment_frame (request : DietaryRequest) (k : Kitchen) (ds : list Dish) :
  wf k -> contents k = Some ds ->
  exists k', dietaryAdjustment request k = Some k' /\
    getCurrentSize k' = getCurrentSize k /\
    total_prep_time_ k' = total_prep_time_ k /\
    count_elaborate_ k' = count_elaborate_ k /\
    items_ k' = items_ k /\
    contents k' = Some (dietaryAccommodations request <$> ds) /\
    Forall (fun d => getPrepTime (dietaryAccommodations request d) = getPrepTime d /\
                     getCuisine (dietaryAccommodations request d) = getCuisine d /\
                     untouched (dietaryAccommodations request d) = untouched d) ds.
Proof.
  intros Hwf Hds.
  destruct (dietaryAdjustment_loop_spec request (item_count_ k) 0 k ds Hwf Hds)
    as (k' & Hres & _ & H1 & H2 & H3 & H4 & H5); [lia|].
  exists k'. repeat split; try done.
  apply Forall_forall. intros d _. apply dietaryAccommodations_frame.
Qed.

(** ** [calculateAvgPrepTime] *)

Lemma sum_loop_spec k ds :
  (item_count_ k <= length (items_ k))%nat -> contents k = Some ds ->
  forall n i total, (i + n = item_count_ k)%nat ->
    sum_loop k total i n = Some (total + sum_prep_time (drop i ds)).
Proof.
  intros Hle Hds. pose proof (contents_length _ _ Hle Hds) as Hlen.
  induction n as [|n IH]; intros i total Hin; simpl.
  - rewrite drop_ge by lia. simpl. f_equal. lia.
  - destruct (lookup_lt_is_Some_2 ds i) as [x Hx]; [lia|].
    rewrite (contents_lookup k ds i x Hds Hx). simpl.
    rewrite IH by lia. rewrite (drop_S ds x i Hx). simpl. f_equal. lia.
Qed.

Lemma round_half_away_nearest num den :
  0 < den -> Z.abs (2 * (round_half_away num den * den - num)) <= den.
Proof.
  intros Hden. unfold round_half_away.
  destruct (0 <=? num) eqn:Hsign.
  - pose proof (Z.div_mod (2 * num + den) (2 * den)) as Hdm.
    pose proof (Z.mod_pos_bound (2 * num + den) (2 * den)) as Hb.
    lia.
  - pose proof (Z.div_mod (2 * - num + den) (2 * den)) as Hdm.
    pose proof (Z.mod_pos_bound (2 * - num + den) (2 * den)) as Hb.
    lia.
Qed.

Lemma sum_prep_time_map ds :
  sum_prep_time ds = foldr Z.add 0 (getPrepTime <$> ds).
Proof. induction ds as [|d ds IH]; simpl; [done|]. by rewrite IH. Qed.

Lemma sum_loop_binary64_spec k ds :
  (item_count_ k <= length (items_ k))%nat -> contents k = Some ds ->
  forall n i total, (i + n = item_count_ k)%nat ->
    sum_loop_binary64 k total i n =
    Some (foldl (fun acc t => SFadd 53 1024 acc (b64_of_int t)) total
                (getPrepTime <$> drop i ds)).
Proof.
  intros Hle Hds. pose proof (contents_length _ _ Hle Hds) as Hlen.
  induction n as [|n IH]; intros i total Hin; simpl.
  - by rewrite drop_ge by lia.
  - destruct (lookup_lt_is_Some_2 ds i) as [x Hx]; [lia|].
    rewrite (contents_lookup k ds i x Hds Hx). simpl.
    rewrite IH by lia. by rewrite (drop_S ds x i Hx).
Qed.

(** C7. [calculateAvgPrepTime] returns 0 for an empty kitchen; otherwise it
    returns the sum of the prep times divided by the size, rounded to the
    nearest integer (halfway cases away from zero).  Prep times 10, 20 and
    21 give 17.  The two concrete results also hold when the loop is
    evaluated in binary64 arithmetic. *)
Theorem calculateAvgPrepTime_rounds (k : Kitchen) (ds : list Dish) :
  wf k -> contents k = Some ds ->
  (exists r, calculateAvgPrepTime k = Some r /\
     (ds = [] -> r = 0) /\
     (ds <> [] ->
      r = round_half_away (sum_prep_time ds) (Z.of_nat (length ds)) /\
      Z.abs (2 * (r * Z.of_nat (length ds) - sum_prep_time ds)) <= Z.of_nat (length ds)) /\
     (getPrepTime <$> ds = [10; 20; 21] -> r = 17)) /\
  (exists r64, calculateAvgPrepTime_binary64 k = Some r64 /\
     (ds = [] -> r64 = 0) /\
     (getPrepTime <$> ds = [10; 20; 21] -> r64 = 17)).
Proof.
  intros (Hle & _ & _) Hds. pose proof (contents_length _ _ Hle Hds) as Hlen.
  split.
  - unfold calculateAvgPrepTime, getCurrentSize. case_bool_decide as Hz.
    + exists 0. split; [done|]. split; [done|]. split.
      * intros Hne. destruct ds; [done|simpl in Hlen; lia].
      * intros Hmap. apply (f_equal length) in Hmap.
        rewrite length_fmap in Hmap. simpl in Hmap. lia.
    + rewrite (sum_loop_spec k ds Hle Hds) by lia. simpl.
      rewrite drop_0, <- Hlen. eexists. split; [done|]. split; [|split].
      * intros ->. simpl in Hlen. lia.
      * intros _. split; [done|]. apply round_half_away_nearest. lia.
      * intros Hmap. rewrite sum_prep_time_map, Hmap.
        apply (f_equal length) in Hmap. rewrite length_fmap in Hmap.
        rewrite Hmap. reflexivity.
  - unfold calculateAvgPrepTime_binary64, getCurrentSize. case_bool_decide as Hz.
    + exists 0. split; [done|]. split; [done|].
      intros Hmap. apply (f_equal length) in Hmap.
      rewrite length_fmap in Hmap. simpl in Hmap. lia.
    + rewrite (sum_loop_binary64_spec k ds Hle Hds) by lia. simpl.
      rewrite drop_0, <- Hlen. eexists. split; [done|]. split.
      * intros ->. simpl in Hlen. lia.
      * intros Hmap. rewrite Hmap.
        apply (f_equal length) in Hmap. rewrite length_fmap in Hmap.
        rewrite Hmap. by vm_compute.
Qed.

(** ** [releaseDishesBelowPrepTime] on pairwise distinct dishes *)

Section Release.

Variables (prep_time : Z) (k0 : Kitchen) (ds0 : list Dish).
Hypothesis k0_wf : wf k0.
Hypothesis k0_contents : contents k0 = Some ds0.
Hypothesis ds0_distinct : NoDup ds0.

Local Abbreviation inv := (release_inv prep_time k0 ds0).

Lemma release_inv_slot i count k x :
  inv i count k -> ds0 !! i = Some x ->
  exists a, items_ k !! i = Some (Some a) /\ deref (heap k) (Some a) = Some x /\
    live_slots k0 !! i = Some (Some a) /\
    forall j b, live_slots k !! j = Some (Some b) ->
      deref (heap k) (Some b) = Some x -> b = a.
Proof.
  intros (Hwf & Hslots & (ds & Hds & Hperm) & Horig & _) Hx.
  pose proof k0_wf as (Hle0 & _ & _).
  pose proof (contents_length _ _ Hle0 k0_contents) as Hlen0.
  assert (i < item_count_ k0)%nat as Hi by (apply lookup_lt_Some in Hx; lia).
  assert (x ∈ ds) as Hin.
  { rewrite Hperm. apply elem_of_app. right.
    apply list_elem_of_lookup. exists 0%nat. rewrite lookup_drop.
    by rewrite Nat.add_0_r. }
  apply list_elem_of_lookup_1 in Hin as [j Hj].
  pose proof Hds as HF. apply contents_Some in HF.
  destruct (Forall2_lookup_r _ _ _ _ _ HF Hj) as (p & Hp & Hd).
  destruct (Horig p x) as (j0 & Hj0 & Hd0); [by eapply list_elem_of_lookup_2|done|].
  assert (j0 = i) as -> by (by eapply NoDup_lookup).
  pose proof Hd as Hd'. apply deref_Some in Hd' as (a & -> & _).
  exists a. split; [|split; [done|split; [done|]]].
  - rewrite Hslots by lia. unfold live_slots in Hj0.
    by apply lookup_take_Some in Hj0 as [? _].
  - intros j' b Hj' Hb.
    destruct (Horig (Some b) x) as (j1 & Hj1 & Hd1);
      [by eapply list_elem_of_lookup_2|done|].
    assert (j1 = i) as -> by (by eapply NoDup_lookup). congruence.
Qed.

Lemma release_inv_keep i count k x :
  inv i count k -> ds0 !! i = Some x -> prep_time <= getPrepTime x ->
  inv (S i) count k.
Proof.
  intros (Hwf & Hslots & (ds & Hds & Hperm) & Horig & Hcount) Hx Hkeep.
  split; [done|]. split; [intros j Hj; apply Hslots; lia|].
  split; [|split; [done|]].
  - exists ds. split; [done|]. rewrite Hperm.
    rewrite (take_S_r ds0 i x Hx), filter_app, (drop_S ds0 x i Hx).
    rewrite filter_cons_True by done. simpl. by rewrite <- app_assoc.
  - rewrite (take_S_r ds0 i x Hx), filter_app, length_app.
    rewrite filter_cons_False by lia. simpl. by rewrite Nat.add_0_r.
Qed.

Lemma release_inv_serve i count k x :
  inv i count k -> ds0 !! i = Some x -> getPrepTime x < prep_time ->
  exists k', serveDish x k = Some (true, k') /\
    inv (S i) (wrap (count + 1)) k'.
Proof.
  intros Hinv Hx Hlow.
  destruct (release_inv_slot i count k x Hinv Hx) as (a & Hia & Hax & Hi0 & Huniq).
  destruct Hinv as (Hwf & Hslots & (ds & Hds & Hperm) & Horig & Hcount).
  assert (x ∈ ds) as Hin.
  { rewrite Hperm. apply elem_of_app. right.
    apply list_elem_of_lookup. exists 0%nat. rewrite lookup_drop.
    by rewrite Nat.add_0_r. }
  destruct (serveDish_present x k ds Hwf Hds Hin)
    as (j & b & Hj & Hjb & Hjx & _ & Hres).
  assert (live_slots k !! j = Some (Some b)) as Hlj
    by (unfold live_slots; by rewrite lookup_take_lt).
  pose proof Hds as HF. apply contents_Some in HF.
  pose proof (Forall2_lookup_lr _ _ _ _ _ _ HF Hlj Hjx) as Hbx. simpl in Hbx.
  assert (b = a) as -> by (by eapply Huniq).
  destruct (take_out_spec k ds j a x Hwf Hds Hjb Hj Hjx)
    as (Hwf' & Hc' & Hheap' & Hitems' & Hcount' & _ & _).
  exists (take_out k (Some a) x). split; [done|].
  assert (j <= i)%nat as Hji.
  { destruct (decide (i < item_count_ k)%nat) as [Hlt|]; [|lia].
    assert (live_slots k !! i = Some (Some a)) as Hli
      by (unfold live_slots; by rewrite lookup_take_lt).
    destruct Hwf as (_ & Hnd & _).
    by rewrite (NoDup_lookup _ _ _ _ Hnd Hlj Hli). }
  pose proof (swap_remove_perm j ds x Hjx) as Hpds.
  pose proof (swap_remove_perm j (live_slots k) (Some a) Hlj) as Hpslots.
  split; [done|]. split; [|split; [|split]].
  - intros j' Hj'. rewrite Hitems', list_lookup_insert_ne by lia.
    apply Hslots. lia.
  - exists (swap_remove j ds). split; [done|].
    apply (Permutation_cons_inv (a := x)). rewrite <- Hpds, Hperm.
    rewrite (take_S_r ds0 i x Hx), filter_app, (drop_S ds0 x i Hx).
    rewrite filter_cons_False by lia. rewrite filter_nil, app_nil_r.
    by rewrite Permutation_middle.
  - intros p d Hp Hd.
    assert (live_slots (take_out k (Some a) x) = swap_remove j (live_slots k)) as Hlive.
    { unfold live_slots. rewrite Hitems', Hcount'.
      apply live_slots_swap_remove. destruct Hwf as (Hle & _). lia. }
    rewrite Hlive in Hp. rewrite Hheap' in Hd.
    destruct (decide (p = Some a)) as [->|Hne].
    + apply deref_Some in Hd as (a' & [= <-] & Ha').
      rewrite list_lookup_insert_eq in Ha'; [done|].
      apply deref_Some in Hax as (? & [= <-] & Ha). by eapply lookup_lt_Some.
    + rewrite deref_insert_ne in Hd by done. apply Horig; [|done].
      rewrite Hpslots. by right.
  - rewrite Hcount, wrap_add_l. f_equal.
    rewrite (take_S_r ds0 i x Hx), filter_app, length_app.
    rewrite filter_cons_True by done. simpl. lia.
Qed.

Lemma release_loop_spec n : forall i count k,
  inv i count k -> (i + n = item_count_ k0)%nat ->
  exists count' k', release_loop prep_time k count i n = Some (count', k') /\
    inv (item_count_ k0) count' k'.
Proof.
  pose proof k0_wf as (Hle0 & _ & _).
  pose proof (contents_length _ _ Hle0 k0_contents) as Hlen0.
  induction n as [|n IH]; intros i count k Hinv Hin.
  - exists count, k. split; [done|]. by replace (item_count_ k0) with i by lia.
  - destruct (lookup_lt_is_Some_2 ds0 i) as [x Hx]; [lia|].
    destruct (release_inv_slot i count k x Hinv Hx) as (a & Hia & Hax & _).
    cbn [release_loop]. unfold dish_at. rewrite Hia. cbn [mbind option_bind].
    rewrite Hax. cbn [mbind option_bind].
    destruct (getPrepTime x <? prep_time) eqn:Hcmp.
    + apply Z.ltb_lt in Hcmp.
      destruct (release_inv_serve i count k x Hinv Hx Hcmp) as (k' & -> & Hinv').
      cbn [mbind option_bind snd]. apply IH; [done|lia].
    + apply Z.ltb_ge in Hcmp.
      apply IH; [by eapply release_inv_keep|lia].
Qed.

End Release.

(** X23: on a kitchen whose dishes are pairwise different,
    [releaseDishesBelowPrepTime] is defined, leaves exactly the dishes
    whose prep time is not below the threshold, and returns the number of
    dishes it served. *)
Lemma release_distinct_dishes (prep_time : Z) (k : Kitchen) (ds : list Dish) :
  wf k -> contents k = Some ds -> NoDup ds ->
  exists count k' ds',
    releaseDishesBelowPrepTime prep_time k = Some (count, k') /\
    wf k' /\ contents k' = Some ds' /\
    ds' ≡ₚ filter (fun d => prep_time <= getPrepTime d) ds /\
    Forall (fun d => prep_time <= getPrepTime d) ds' /\
    count = wrap (Z.of_nat (length (filter (fun d => getPrepTime d < prep_time) ds))).
Proof.
  intros Hwf Hds Hnd. pose proof Hwf as (Hle & _ & _).
  pose proof (contents_length _ _ Hle Hds) as Hlen.
  destruct (release_loop_spec prep_time k ds Hwf Hds Hnd (item_count_ k) 0 0 k)
    as (count & k' & Hres & Hwf' & _ & (ds' & Hds' & Hperm) & _ & Hcount); [|lia|].
  { split; [done|]. split; [done|]. split; [|split].
    - exists ds. split; [done|]. by rewrite take_0, drop_0.
    - intros p d Hp Hd. apply list_elem_of_lookup_1 in Hp as [j Hj].
      exists j. split; [done|]. apply contents_Some in Hds.
      destruct (Forall2_lookup_l _ _ _ _ _ Hds Hj) as (d' & Hd' & Hpd).
      simpl in Hpd. congruence.
    - by rewrite take_0. }
  rewrite take_ge, drop_ge, app_nil_r in Hperm by lia.
  rewrite take_ge in Hcount by lia.
  exists count, k', ds'. repeat split; try done; try apply Hwf'.
  rewrite Hperm. apply Forall_forall. intros d Hd.
  by apply list_elem_of_filter in Hd as [? _].
Qed.

(** ** The statements above on concrete kitchens *)

Lemma place_orders_reachable capacity ds : forall k k',
  reachable capacity k -> place_orders ds k = Some k' -> reachable capacity k'.
Proof.
  induction ds as [|d ds IH]; intros k k' Hreach Hk'; simpl in Hk'.
  - by injection Hk' as <-.
  - destruct (place_order d k) as [[b k1]|] eqn:Hstep; [|done].
    simpl in Hk'. eapply IH; [|exact Hk']. by eapply reach_order.
Qed.

Lemma dinner_reachable : reachable 3 dinner.
Proof.
  apply (place_orders_reachable 3 [stew; ADessert custard; praline_cake]
           (Kitchen_new 3)); [apply reach_new | by vm_compute].
Qed.

Lemma after_service_reachable : reachable 3 after_service.
Proof.
  apply (reach_serve 3 dinner (ADessert custard) true);
    [apply dinner_reachable | by vm_compute].
Qed.

Lemma dinner_wf : wf dinner.
Proof. apply (bool_decide_unpack _). by vm_compute. Qed.

Lemma dinner_contents : contents dinner = Some [stew; ADessert custard; praline_cake].
Proof. by vm_compute. Qed.

Lemma tasting_wf : wf tasting.
Proof. apply (bool_decide_unpack _). by vm_compute. Qed.

Lemma tasting_contents :
  contents tasting = Some [side_order "Crostini" 10; side_order "Bruschetta" 20;
                           side_order "Focaccia" 21].
Proof. by vm_compute. Qed.

Lemma totals_track_contents_witness :
  reachable 3 after_service /\
  exists ds, contents after_service = Some ds /\
    total_prep_time_ after_service = wrap (sum_prep_time ds) /\
    (in_int (sum_prep_time ds) -> total_prep_time_ after_service = sum_prep_time ds) /\
    (Z.of_nat 3 <= INT_MAX ->
     count_elaborate_ after_service = Z.of_nat (count_elaborate ds)).
Proof.
  split; [exact after_service_reachable|].
  exact (totals_track_contents 3 after_service after_service_reachable).
Defined.

(** Without the condition on the range the equality with the mathematical
    sum fails: after orders of [INT_MAX] minutes and of one minute the sum
    is [2 ^ 31] and the member holds [INT_MIN]. *)
Lemma totals_track_contents_counterexample :
  reachable 2 overtime /\
  contents overtime = Some [long_braise; side_order "Garnish" 1] /\
  sum_prep_time [long_braise; side_order "Garnish" 1] = 2 ^ 31 /\
  total_prep_time_ overtime = INT_MIN /\
  total_prep_time_ overtime <> sum_prep_time [long_braise; side_order "Garnish" 1].
Proof.
  split.
  { apply (place_orders_reachable 2 [long_braise; side_order "Garnish" 1]
             (Kitchen_new 2)); [apply reach_new | by vm_compute]. }
  split; [by vm_compute|]. split; [by vm_compute|]. split; by vm_compute.
Qed.

Lemma serveDish_not_found_witness : serveDish toast dinner = Some (false, dinner).
Proof.
  assert (toast ∉ [stew; ADessert custard; praline_cake]) as Hnot
    by (apply (bool_decide_unpack _); by vm_compute).
  destruct (serveDish_not_found dinner _ toast dinner_wf dinner_contents Hnot)
    as (k' & Hres & Hsame & _).
  rewrite Hres. by rewrite Hsame.
Defined.

Lemma newOrder_on_full_kitchen_witness :
  exists k, place_orders [stew; ADessert custard; praline_cake] (Kitchen_new 3) = Some k /\
    getCurrentSize k = 3%nat /\
    newOrder 7%nat k = Some (false, k).
Proof.
  destruct (newOrder_on_full_kitchen 3 [stew; ADessert custard; praline_cake])
    as (k & Hk & Hsize & Hfull).
  exists k. split; [exact Hk|]. split; [exact Hsize|].
  destruct (Hfull Hsize 7%nat) as (k' & Hres & Hsame & _).
  rewrite Hres. by rewrite Hsame.
Defined.

Lemma calculateAvgPrepTime_rounds_witness :
  calculateAvgPrepTime tasting = Some 17 /\
  calculateAvgPrepTime_binary64 tasting = Some 17.
Proof.
  destruct (calculateAvgPrepTime_rounds tasting _ tasting_wf tasting_contents)
    as ((r & Hres & _ & _ & Hexample) & (r64 & Hres64 & _ & Hexample64)).
  split.
  - rewrite Hres. f_equal. by apply Hexample.
  - rewrite Hres64. f_equal. by apply Hexample64.
Defined.

(** On [dinner] (prep times 90, 30 and 75) the binary64 evaluation of the
    loop and the exact one agree as well. *)
Example calculateAvgPrepTime_binary64_dinner :
  calculateAvgPrepTime_binary64 dinner = calculateAvgPrepTime dinner.
Proof. by vm_compute. Qed.

(** After a nut-free adjustment of [dinner] the praline cake has four
    ingredients left, so only one contained dish is elaborate, while
    [count_elaborate_] still reads 2. *)
Lemma dietaryAdjustment_frame_witness :
  exists k', dietaryAdjustment only_nut_free dinner = Some k' /\
    count_elaborate_ k' = 2 /\
    count_elaborate <$> contents k' = Some 1%nat.
Proof.
  destruct (dietaryAdjustment_frame only_nut_free dinner _ dinner_wf dinner_contents)
    as (k' & Hres & _ & _ & Helab & _ & Hcontents & _).
  exists k'. split; [exact Hres|]. split.
  - by rewrite Helab.
  - by rewrite Hcontents.
Defined.

(** ** [releaseDishesBelowPrepTime] with equal dishes *)

(** C2, evaluated on a kitchen that holds an affogato and the same toast
    twice, with threshold 10.  Serving the affogato moves the second toast
    to slot 0; serving the first toast then finds, deletes and removes that
    second toast, the first equal dish in the array; the loop, still bounded
    by the size at entry, finally reads slot 2, which keeps the pointer to
    the toast just deleted.  The call has no defined result. *)
Theorem release_with_equal_dishes_undefined :
  reachable 5 rush_hour /\
  contents rush_hour = Some [affogato; toast; toast] /\
  (exists k1, serveDish affogato rush_hour = Some (true, k1) /\
     exists k2, serveDish toast k1 = Some (true, k2) /\
       items_ k2 !! 2%nat = Some (Some 2%nat) /\
       heap k2 !! 2%nat = Some None /\
       dish_at k2 2 = None) /\
  releaseDishesBelowPrepTime 10 rush_hour = None.
Proof.
  split; [|split; [|split]].
  - apply (place_orders_reachable 5 [affogato; toast; toast] (Kitchen_new 5));
      [apply reach_new | by vm_compute].
  - by vm_compute.
  - eexists. split; [by vm_compute|]. eexists. split; [by vm_compute|].
    by vm_compute.
  - by vm_compute.
Qed.

(** With threshold 21 the tasting kitchen loses its first two dishes. *)
Example release_tasting :
  exists k', releaseDishesBelowPrepTime 21 tasting = Some (2, k') /\
    contents k' = Some [side_order "Focaccia" 21] /\
    total_prep_time_ k' = 21.
Proof. eexists. split; [by vm_compute|]. by vm_compute. Qed.

(** * Further properties of the dish transforms *)

(** ** The bounded substitution *)

Lemma filter_all {A} (P : A -> Prop) `{forall x, Decision (P x)} (l : list A) :
  Forall P l -> filter P l = l.
Proof.
  induction 1 as [|x l Hx _ IH]; [done|].
  by rewrite filter_cons_True, IH.
Qed.

Lemma Forall_filter_self {A} (P : A -> Prop) `{forall x, Decision (P x)} (l : list A) :
  Forall P (filter P l).
Proof. apply Forall_forall. intros x Hx. by apply list_elem_of_filter in Hx as [? _]. Qed.

Lemma bounded_substitution_clean forbidden left ingredients :
  Forall (fun r => r ∉ forbidden) left ->
  Forall (fun x => x ∉ forbidden) (bounded_substitution forbidden left ingredients).
Proof.
  revert left. induction ingredients as [|x l IH]; intros left Hleft; simpl; [done|].
  case_bool_decide as Hx.
  - destruct left as [|r left']; [by apply IH|].
    apply Forall_cons in Hleft as [Hr Hleft']. apply Forall_cons. split; [done|by apply IH].
  - apply Forall_cons. split; [done|by apply IH].
Qed.

Lemma bounded_substitution_id forbidden left ingredients :
  Forall (fun x => x ∉ forbidden) ingredients ->
  bounded_substitution forbidden left ingredients = ingredients.
Proof.
  induction 1 as [|x l Hx _ IH]; simpl; [done|].
  rewrite bool_decide_eq_false_2 by done. by rewrite IH.
Qed.

Lemma bounded_substitution_length forbidden left ingredients :
  length (bounded_substitution forbidden left ingredients) =
  (length (filter (fun x => x ∉ forbidden) ingredients) +
   Nat.min (length left) (length (filter (fun x => x ∈ forbidden) ingredients)))%nat.
Proof.
  revert left. induction ingredients as [|x l IH]; intros left; simpl.
  - by rewrite Nat.min_0_r.
  - case_bool_decide as Hx.
    + rewrite (filter_cons_True (fun x => x ∈ forbidden)) by done.
      rewrite (filter_cons_False (fun x => x ∉ forbidden)) by (intros Hn; by apply Hn).
      destruct left as [|r left']; simpl; rewrite IH; simpl; lia.
    + rewrite (filter_cons_False (fun x => x ∈ forbidden)) by done.
      rewrite (filter_cons_True (fun x => x ∉ forbidden)) by done.
      simpl. by rewrite IH.
Qed.

Lemma filter_split_length {A} (P : A -> Prop) `{forall x, Decision (P x)} (l : list A) :
  (length (filter P l) + length (filter (fun x => ~ P x) l) = length l)%nat.
Proof.
  induction l as [|x l IH]; [done|].
  destruct (decide (P x)).
  - rewrite filter_cons_True, (filter_cons_False (fun x => ~ P x)) by tauto. simpl. lia.
  - rewrite filter_cons_False, (filter_cons_True (fun x => ~ P x)) by tauto. simpl. lia.
Qed.

Lemma bounded_substitution_length_le forbidden left ingredients :
  (length (bounded_substitution forbidden left ingredients) <= length ingredients)%nat.
Proof.
  rewrite bounded_substitution_length.
  pose proof (filter_split_length (fun x => x ∈ forbidden) ingredients).
  lia.
Qed.

(** X1: the substitution loops of the three classes replace at most two
    ingredients and drop the other listed ones. *)
Theorem substitution_replaces_at_most_two (names : list string) (r1 r2 : string)
    (ingredients : list string) :
  length (substitute_from [] names r1 r2 ingredients) =
  (length (filter (fun x => x ∉ names) ingredients) +
   Nat.min 2 (length (filter (fun x => x ∈ names) ingredients)))%nat.
Proof.
  rewrite substitute_from_bounded.
  apply (bounded_substitution_length names [r1; r2]).
Qed.

(** ** The ingredient list after a call, class by class *)

Lemma appetizer_ingredients_after request self :
  ingredients_ (appetizer_base (AppetizerOps.dietaryAccommodations request self)) =
  appetizer_ingredients request (ingredients_ (appetizer_base self)).
Proof.
  unfold AppetizerOps.dietaryAccommodations, appetizer_ingredients.
  destruct (vegetarian request), (low_sodium request), (gluten_free request); simpl;
    by rewrite ?drop_listed_filter, ?substitute_from_bounded.
Qed.

Lemma main_course_ingredients_after request self :
  ingredients_ (main_base (MainCourseOps.dietaryAccommodations request self)) =
  main_course_ingredients request (ingredients_ (main_base self)).
Proof.
  unfold MainCourseOps.dietaryAccommodations, main_course_ingredients.
  destruct (vegetarian request), (vegan request), (gluten_free request); simpl;
    by rewrite ?drop_listed_filter, ?substitute_from_bounded.
Qed.

Lemma dessert_ingredients_after request self :
  ingredients_ (dessert_base (DessertOps.dietaryAccommodations request self)) =
  dessert_ingredients request (ingredients_ (dessert_base self)).
Proof.
  unfold DessertOps.dietaryAccommodations, dessert_ingredients.
  destruct (nut_free request), (low_sugar request), (vegan request); simpl;
    by rewrite ?drop_listed_filter, ?substitute_from_bounded.
Qed.

Lemma gluten_free_sides_filter sides :
  MainCourseOps.gluten_free_sides sides =
  filter (fun side => MainCourseOps.keep_side side = true) sides.
Proof.
  unfold MainCourseOps.gluten_free_sides.
  enough (forall acc,
    fold_left (fun acc side => if MainCourseOps.keep_side side then acc ++ [side] else acc)
              sides acc
    = acc ++ filter (fun side => MainCourseOps.keep_side side = true) sides) as H
    by apply (H []).
  induction sides as [|s l IH]; intros acc; simpl.
  - by rewrite app_nil_r.
  - rewrite IH, filter_cons. destruct (MainCourseOps.keep_side s); case_decide; try done.
    by rewrite <- app_assoc.
Qed.

(** The three transforms in closed form. *)
Lemma appetizer_after request n l p pr c style level veg :
  AppetizerOps.dietaryAccommodations request
    (mkAppetizer (mkBase n l p pr c) style level veg) =
  mkAppetizer (mkBase n (appetizer_ingredients request l) p pr c) style
              (if low_sodium request then Z.max 0 (wrap (level - 2)) else level)
              (vegetarian request || veg).
Proof.
  unfold AppetizerOps.dietaryAccommodations, appetizer_ingredients.
  destruct (vegetarian request), (low_sodium request), (gluten_free request); simpl;
    unfold AppetizerOps.set_base, setIngredients; simpl;
    by rewrite ?drop_listed_filter, ?substitute_from_bounded.
Qed.

Lemma main_course_after request n l p pr c method protein sides gf :
  MainCourseOps.dietaryAccommodations request
    (mkMainCourse (mkBase n l p pr c) method protein sides gf) =
  mkMainCourse (mkBase n (main_course_ingredients request l) p pr c) method
               (if vegetarian request || vegan request then "Tofu"%string else protein)
               (if gluten_free request
                then filter (fun side => MainCourseOps.keep_side side = true) sides
                else sides)
               (gluten_free request || gf).
Proof.
  unfold MainCourseOps.dietaryAccommodations, main_course_ingredients.
  destruct (vegetarian request), (vegan request), (gluten_free request); simpl;
    unfold MainCourseOps.set_base, MainCourseOps.set_protein, setIngredients; simpl;
    by rewrite ?drop_listed_filter, ?substitute_from_bounded, ?gluten_free_sides_filter.
Qed.

Lemma dessert_after request n l p pr c flavor level has_nuts :
  DessertOps.dietaryAccommodations request
    (mkDessert (mkBase n l p pr c) flavor level has_nuts) =
  mkDessert (mkBase n (dessert_ingredients request l) p pr c) flavor
            (if low_sugar request then Z.max 0 (wrap (level - 3)) else level)
            (if nut_free request then false else has_nuts).
Proof.
  unfold DessertOps.dietaryAccommodations, dessert_ingredients.
  destruct (nut_free request), (low_sugar request), (vegan request); simpl;
    unfold DessertOps.set_base, setIngredients; simpl;
    by rewrite ?drop_listed_filter, ?substitute_from_bounded.
Qed.

Lemma Forall_filter_keep {A} (P Q : A -> Prop) `{forall x, Decision (Q x)} (l : list A) :
  Forall P l -> Forall P (filter Q l).
Proof.
  rewrite !Forall_forall. intros HP x Hx.
  apply list_elem_of_filter in Hx as [_ Hx]. by apply HP.
Qed.

Lemma meat_replacements_clean :
  Forall (fun r => r ∉ non_vegetarian) ["Beans"; "Mushrooms"]%string.
Proof. apply (bool_decide_unpack _). by vm_compute. Qed.

Lemma dairy_replacements_clean :
  Forall (fun r => r ∉ dairy_and_eggs) ["Almond Milk"; "Flax Egg"]%string.
Proof. apply (bool_decide_unpack _). by vm_compute. Qed.

(** X2: a vegetarian request leaves no listed meat in an appetizer or a
    main course, whatever the other flags are; the appetizer is flagged
    vegetarian and the main course gets "Tofu" as its protein. *)
Theorem vegetarian_request_leaves_no_meat (request : DietaryRequest) :
  vegetarian request = true ->
  (forall a : Appetizer,
     let after := AppetizerOps.dietaryAccommodations request a in
     vegetarian_ after = true /\
     Forall (fun x => x ∉ non_vegetarian) (ingredients_ (appetizer_base after))) /\
  (forall m : MainCourse,
     let after := MainCourseOps.dietaryAccommodations request m in
     protein_type_ after = "Tofu"%string /\
     Forall (fun x => x ∉ non_vegetarian) (ingredients_ (main_base after))).
Proof.
  intros Hveg. split.
  - intros [[n l p pr c] style level veg] after. subst after.
    rewrite appetizer_after. simpl. rewrite Hveg. split; [done|].
    unfold appetizer_ingredients. rewrite Hveg.
    pose proof (bounded_substitution_clean non_vegetarian _ l meat_replacements_clean).
    destruct (gluten_free request); [by apply Forall_filter_keep|done].
  - intros [[n l p pr c] method protein sides gf] after. subst after.
    rewrite main_course_after. simpl. rewrite Hveg. split; [done|].
    unfold main_course_ingredients. rewrite Hveg.
    pose proof (bounded_substitution_clean non_vegetarian _ l meat_replacements_clean).
    destruct (vegan request); [by apply Forall_filter_keep|done].
Qed.

(** X3: a vegan request leaves no listed dairy or egg ingredient in a main
    course or a dessert, and sets the protein of a main course to "Tofu". *)
Theorem vegan_request_leaves_no_dairy (request : DietaryRequest) :
  vegan request = true ->
  (forall m : MainCourse,
     let after := MainCourseOps.dietaryAccommodations request m in
     protein_type_ after = "Tofu"%string /\
     Forall (fun x => x ∉ dairy_and_eggs) (ingredients_ (main_base after))) /\
  (forall s : Dessert,
     Forall (fun x => x ∉ dairy_and_eggs)
            (ingredients_ (dessert_base (DessertOps.dietaryAccommodations request s)))).
Proof.
  intros Hvegan. split.
  - intros [[n l p pr c] method protein sides gf] after. subst after.
    rewrite main_course_after. simpl. rewrite Hvegan, orb_true_r. split; [done|].
    unfold main_course_ingredients. rewrite Hvegan. apply Forall_filter_self.
  - intros [[n l p pr c] flavor level has_nuts].
    rewrite dessert_after. simpl. unfold dessert_ingredients. rewrite Hvegan.
    destruct (nut_free request); [done|].
    apply bounded_substitution_clean, dairy_replacements_clean.
Qed.

(** X4: a gluten-free request leaves no listed gluten ingredient in an
    appetizer.  On a main course it sets the flag and keeps exactly the side
    dishes outside the four gluten categories, in order, and it has no
    effect on the ingredient list. *)
Theorem gluten_free_request (request : DietaryRequest) :
  gluten_free request = true ->
  (forall a : Appetizer,
     Forall (fun x => x ∉ gluten_containing)
            (ingredients_ (appetizer_base (AppetizerOps.dietaryAccommodations request a)))) /\
  (forall m : MainCourse,
     let after := MainCourseOps.dietaryAccommodations request m in
     gluten_free_ after = true /\
     side_dishes_ after =
       filter (fun side => category side ∉ [GRAIN; PASTA; BREAD; STARCHES])
              (side_dishes_ m) /\
     ingredients_ (main_base after) =
       ingredients_ (main_base
         (MainCourseOps.dietaryAccommodations
            (mkRequest (vegetarian request) (vegan request) false (nut_free request)
                       (low_sodium request) (low_sugar request)) m))).
Proof.
  intros Hgf. split.
  - intros [[n l p pr c] style level veg].
    rewrite appetizer_after. simpl. unfold appetizer_ingredients. rewrite Hgf.
    apply Forall_filter_self.
  - intros [[n l p pr c] method protein sides gf] after. subst after.
    rewrite !main_course_after. simpl. rewrite Hgf. split; [done|]. split; [|done].
    apply list_filter_iff. intros side. unfold MainCourseOps.keep_side.
    destruct (category side);
      (split;
       [ intros Hk; vm_compute in Hk; try discriminate Hk;
         apply (bool_decide_unpack _); by vm_compute
       | intros Hn; try (by vm_compute); exfalso; apply Hn; repeat constructor ]).
Qed.

(** X5: a nut-free request clears the nut flag of a dessert and leaves no
    listed nut among its ingredients. *)
Theorem nut_free_request_leaves_no_nuts (request : DietaryRequest) (s : Dessert) :
  nut_free request = true ->
  let after := DessertOps.dietaryAccommodations request s in
  contains_nuts_ after = false /\
  Forall (fun x => x ∉ nuts) (ingredients_ (dessert_base after)) /\
  (vegan request = false ->
   ingredients_ (dessert_base after) =
     filter (fun x => x ∉ nuts) (ingredients_ (dessert_base s))).
Proof.
  intros Hnut after. subst after. destruct s as [[n l p pr c] flavor level has_nuts].
  rewrite dessert_after. simpl. unfold dessert_ingredients. rewrite Hnut.
  split; [done|]. split.
  - destruct (vegan request); [done|apply Forall_filter_self].
  - by intros ->.
Qed.

Lemma filter_filter_same {A} (P : A -> Prop) `{forall x, Decision (P x)} (l : list A) :
  filter P (filter P l) = filter P l.
Proof. apply filter_all, Forall_filter_self. Qed.

Lemma appetizer_ingredients_length request l :
  (length (appetizer_ingredients request l) <= length l)%nat.
Proof.
  unfold appetizer_ingredients.
  pose proof (bounded_substitution_length_le non_vegetarian ["Beans"; "Mushrooms"]%string l).
  destruct (vegetarian request), (gluten_free request);
    try (etrans; [apply length_filter|]); done.
Qed.

Lemma main_course_ingredients_length request l :
  (length (main_course_ingredients request l) <= length l)%nat.
Proof.
  unfold main_course_ingredients.
  pose proof (bounded_substitution_length_le non_vegetarian ["Beans"; "Mushrooms"]%string l).
  destruct (vegetarian request), (vegan request);
    try (etrans; [apply length_filter|]); done.
Qed.

Lemma dessert_ingredients_length request l :
  (length (dessert_ingredients request l) <= length l)%nat.
Proof.
  unfold dessert_ingredients.
  pose proof (bounded_substitution_length_le dairy_and_eggs ["Almond Milk"; "Flax Egg"]%string l).
  destruct (vegan request), (nut_free request);
    try apply length_filter; simpl; try done; lia.
Qed.

Lemma ingredients_never_grow request d :
  (length (getIngredients (dietaryAccommodations request d)) <= length (getIngredients d))%nat.
Proof.
  destruct d as [a|m|s]; unfold getIngredients; simpl.
  - rewrite appetizer_ingredients_after. apply appetizer_ingredients_length.
  - rewrite main_course_ingredients_after. apply main_course_ingredients_length.
  - rewrite dessert_ingredients_after. apply dessert_ingredients_length.
Qed.

Lemma elaborate_never_gained request d :
  is_elaborate (dietaryAccommodations request d) = true -> is_elaborate d = true.
Proof.
  pose proof (ingredients_never_grow request d) as Hlen.
  destruct (dietaryAccommodations_frame request d) as (Hprep & _).
  unfold is_elaborate. rewrite Hprep.
  rewrite !andb_true_iff, !Nat.leb_le. intros [H5 H60]. split; [lia|done].
Qed.

(** X6: no dietary transform makes an ingredient list longer, so a dish that
    is not elaborate before a call is not elaborate after it. *)
Theorem dietaryAccommodations_never_adds (request : DietaryRequest) (d : Dish) :
  (length (getIngredients (dietaryAccommodations request d)) <= length (getIngredients d))%nat /\
  (is_elaborate d = false -> is_elaborate (dietaryAccommodations request d) = false).
Proof.
  split; [apply ingredients_never_grow|].
  intros Hbefore. pose proof (elaborate_never_gained request d) as Hmono.
  destruct (is_elaborate (dietaryAccommodations request d)); [|done].
  rewrite Hmono in Hbefore; done.
Qed.

Lemma appetizer_ingredients_twice request l :
  appetizer_ingredients request (appetizer_ingredients request l) =
  appetizer_ingredients request l.
Proof.
  unfold appetizer_ingredients.
  pose proof (bounded_substitution_clean non_vegetarian _ l meat_replacements_clean) as Hclean.
  destruct (vegetarian request), (gluten_free request); try done.
  - rewrite (bounded_substitution_id non_vegetarian) by (by apply Forall_filter_keep).
    apply filter_filter_same.
  - by apply bounded_substitution_id.
  - apply filter_filter_same.
Qed.

Lemma main_course_ingredients_twice request l :
  main_course_ingredients request (main_course_ingredients request l) =
  main_course_ingredients request l.
Proof.
  unfold main_course_ingredients.
  pose proof (bounded_substitution_clean non_vegetarian _ l meat_replacements_clean) as Hclean.
  destruct (vegetarian request), (vegan request); try done.
  - rewrite (bounded_substitution_id non_vegetarian) by (by apply Forall_filter_keep).
    apply filter_filter_same.
  - by apply bounded_substitution_id.
  - apply filter_filter_same.
Qed.

Lemma dessert_ingredients_twice request l :
  dessert_ingredients request (dessert_ingredients request l) =
  dessert_ingredients request l.
Proof.
  unfold dessert_ingredients.
  pose proof (bounded_substitution_clean dairy_and_eggs _ l dairy_replacements_clean) as Hclean.
  destruct (vegan request), (nut_free request); try done.
  - by apply bounded_substitution_id.
  - apply filter_filter_same.
Qed.

Lemma ingredients_twice request d :
  getIngredients (dietaryAccommodations request (dietaryAccommodations request d)) =
  getIngredients (dietaryAccommodations request d).
Proof.
  destruct d as [a|m|s]; unfold getIngredients; cbn [dietaryAccommodations base].
  - by rewrite !appetizer_ingredients_after, appetizer_ingredients_twice.
  - by rewrite !main_course_ingredients_after, main_course_ingredients_twice.
  - by rewrite !dessert_ingredients_after, dessert_ingredients_twice.
Qed.

Lemma accommodations_twice request d :
  low_sodium request = false -> low_sugar request = false ->
  dietaryAccommodations request (dietaryAccommodations request d) =
  dietaryAccommodations request d.
Proof.
  intros Hsodium Hsugar.
  destruct d as [[[n l p pr c] style level veg]
                |[[n l p pr c] method protein sides gf]
                |[[n l p pr c] flavor level has_nuts]];
    cbn [dietaryAccommodations].
  - rewrite !appetizer_after. cbn. rewrite appetizer_ingredients_twice, Hsodium.
    by rewrite orb_assoc, orb_diag.
  - rewrite !main_course_after. cbn. rewrite main_course_ingredients_twice.
    rewrite orb_assoc, orb_diag.
    destruct (vegetarian request || vegan request), (gluten_free request);
      by rewrite ?filter_filter_same.
  - rewrite !dessert_after. cbn. rewrite dessert_ingredients_twice, Hsugar.
    by destruct (nut_free request).
Qed.

(** X7: repeating a request changes no ingredient list again; when the
    request sets neither [low_sodium] nor [low_sugar], the second call
    changes nothing at all. *)
Theorem dietaryAccommodations_repeated (request : DietaryRequest) (d : Dish) :
  getIngredients (dietaryAccommodations request (dietaryAccommodations request d)) =
    getIngredients (dietaryAccommodations request d) /\
  (low_sodium request = false -> low_sugar request = false ->
   dietaryAccommodations request (dietaryAccommodations request d) =
     dietaryAccommodations request d).
Proof. split; [apply ingredients_twice | apply accommodations_twice]. Qed.

(** * Further properties of the kitchen *)

Lemma wrap_idem z : wrap (wrap z) = wrap z.
Proof. pose proof (wrap_add_l z 0) as H. by rewrite !Z.add_0_r in H. Qed.

(** X8: on every kitchen built by [newOrder] and [serveDish],
    [getPrepTimeSum] is the sum of the prep times of the contained dishes
    and [elaborateDishCount] is the number of elaborate dishes among them;
    the guards on an empty kitchen or a zero count do not change that. *)
Theorem getters_report_contents (capacity : nat) (k : Kitchen) :
  reachable capacity k ->
  exists ds, contents k = Some ds /\
    getPrepTimeSum k = wrap (sum_prep_time ds) /\
    (Z.of_nat capacity <= INT_MAX ->
     elaborateDishCount k = Z.of_nat (count_elaborate ds)).
Proof.
  intros Hreach.
  destruct (reachable_invariant capacity k Hreach)
    as ((Hle & Hwf) & Hcap & ds & Hds & Ht & He).
  pose proof (contents_length k ds Hle Hds) as Hlen.
  exists ds. split; [done|]. split.
  - unfold getPrepTimeSum, getCurrentSize. case_bool_decide as Hz; [|done].
    destruct ds; [done|simpl in Hlen; lia].
  - intros Hcapacity.
    assert (count_elaborate_ k = Z.of_nat (count_elaborate ds)) as Hexact.
    { rewrite He. apply wrap_in_int. pose proof (count_elaborate_le ds).
      unfold in_int, INT_MIN, INT_MAX in *. lia. }
    unfold elaborateDishCount, getCurrentSize.
    case_bool_decide as Hz; simpl.
    + destruct ds; [done|simpl in Hlen; lia].
    + case_bool_decide as Hc; [lia|done].
Qed.

(** X9: when a dish equal to [d] is contained, [serveDish] returns true and
    takes out exactly one such dish: the contents before are the contents
    after plus [d], the size drops by one, and the two totals are lowered
    by that dish. *)
Theorem serveDish_found (k : Kitchen) (ds : list Dish) (d : Dish) :
  wf k -> contents k = Some ds -> d ∈ ds ->
  exists k' ds', serveDish d k = Some (true, k') /\
    wf k' /\ contents k' = Some ds' /\ ds ≡ₚ d :: ds' /\
    S (getCurrentSize k') = getCurrentSize k /\
    getCapacity k' = getCapacity k /\
    total_prep_time_ k' = wrap (total_prep_time_ k - getPrepTime d) /\
    count_elaborate_ k' =
      (if is_elaborate d then wrap (count_elaborate_ k - 1) else count_elaborate_ k).
Proof.
  intros Hwf Hds Hin.
  destruct (serveDish_present d k ds Hwf Hds Hin) as (j & a & Hj & Hja & Hjd & _ & Hres).
  destruct (take_out_spec k ds j a d Hwf Hds Hja Hj Hjd)
    as (Hwf' & Hc & _ & Hitems & Hcount & Ht & He).
  exists (take_out k (Some a) d), (swap_remove j ds).
  split; [done|]. split; [done|]. split; [done|].
  split; [by apply swap_remove_perm|]. split; [unfold getCurrentSize; lia|].
  split; [|done]. unfold getCapacity. by rewrite Hitems, length_insert.
Qed.

(** X10: while there is room, [newOrder] on a new dish returns true, puts the
    dish behind the contained ones, and adds it to the two totals. *)
Theorem newOrder_with_room (k : Kitchen) (ds : list Dish) (d : Dish) :
  wf k -> contents k = Some ds -> (getCurrentSize k < getCapacity k)%nat ->
  exists k', place_order d k = Some (true, k') /\
    wf k' /\ contents k' = Some (ds ++ [d]) /\
    getCurrentSize k' = S (getCurrentSize k) /\
    getCapacity k' = getCapacity k /\
    total_prep_time_ k' = wrap (total_prep_time_ k + getPrepTime d) /\
    count_elaborate_ k' =
      (if is_elaborate d then wrap (count_elaborate_ k + 1) else count_elaborate_ k).
Proof.
  intros Hwf Hds Hroom. unfold getCurrentSize, getCapacity in *.
  assert (item_count_ k <> length (items_ k)) as Hne by lia.
  pose proof (place_order_room d k Hne) as Hres.
  destruct (place_order_contents d k ds _ _ Hwf Hds Hres) as (Hwf' & Hc & Hlen & Ht & He).
  eexists. split; [exact Hres|]. split; [done|]. split; [done|].
  split; [done|]. split; [done|]. split; done.
Qed.

(** X11: ordering a dish and serving it again gives back the totals and the
    size, and the same dishes; when no equal dish was contained before, the
    contents are back in the same order. *)
Theorem order_then_serve (capacity : nat) (k : Kitchen) (ds : list Dish) (d : Dish) :
  reachable capacity k -> contents k = Some ds ->
  (getCurrentSize k < getCapacity k)%nat ->
  exists k1 k2 ds2, place_order d k = Some (true, k1) /\
    serveDish d k1 = Some (true, k2) /\
    contents k2 = Some ds2 /\ ds2 ≡ₚ ds /\
    (d ∉ ds -> ds2 = ds) /\
    getCurrentSize k2 = getCurrentSize k /\
    total_prep_time_ k2 = total_prep_time_ k /\
    count_elaborate_ k2 = count_elaborate_ k.
Proof.
  intros Hreach Hds Hroom.
  destruct (reachable_invariant capacity k Hreach)
    as (Hwf & Hcap & ds0 & Hds0 & Ht & He).
  rewrite Hds in Hds0. injection Hds0 as <-.
  unfold getCurrentSize, getCapacity in *.
  assert (item_count_ k <> length (items_ k)) as Hne by lia.
  pose proof (place_order_room d k Hne) as Hres1.
  destruct (place_order_contents d k ds _ _ Hwf Hds Hres1)
    as (Hwf1 & Hc1 & Hlen1 & Ht1 & He1).
  set (k1 := mkKitchen _ _ _ _ _) in *.
  assert (d ∈ ds ++ [d]) as Hin by (apply elem_of_app; right; by left).
  destruct (serveDish_present d k1 _ Hwf1 Hc1 Hin) as (j & a & Hj & Hja & Hjd & Hfirst & Hres2).
  destruct (take_out_spec k1 _ j a d Hwf1 Hc1 Hja Hj Hjd)
    as (Hwf2 & Hc2 & _ & _ & Hcount2 & Ht2 & He2).
  exists k1, (take_out k1 (Some a) d), (swap_remove j (ds ++ [d])).
  split; [done|]. split; [done|]. split; [done|].
  pose proof (swap_remove_perm j _ d Hjd) as Hperm.
  split; [|split; [|split; [|split]]].
  - apply (Permutation_cons_inv (a := d)). rewrite <- Hperm.
    by rewrite Permutation_app_comm.
  - intros Hnot. rewrite swap_remove_snoc.
    destruct (decide (j = length ds)) as [|Hj']; [done|].
    exfalso. apply Hnot. apply (list_elem_of_lookup_2 _ j).
    rewrite lookup_app_l in Hjd; [done|].
    apply lookup_lt_Some in Hjd. rewrite length_app in Hjd. simpl in Hjd. lia.
  - rewrite Hcount2. subst k1. simpl. lia.
  - rewrite Ht2, Ht1. simpl. rewrite wrap_sub_l.
    replace (total_prep_time_ k + getPrepTime d - getPrepTime d)
      with (total_prep_time_ k) by lia.
    by rewrite Ht, wrap_idem.
  - rewrite He2, He1. simpl. destruct (is_elaborate d); [|done].
    rewrite wrap_sub_l.
    replace (count_elaborate_ k + 1 - 1) with (count_elaborate_ k) by lia.
    by rewrite He, wrap_idem.
Qed.

(** ** [dietaryAdjustment] and the totals *)

Lemma sum_prep_time_adjusted request ds :
  sum_prep_time (dietaryAccommodations request <$> ds) = sum_prep_time ds.
Proof.
  unfold sum_prep_time. induction ds as [|d ds IH]; [done|].
  rewrite fmap_cons. cbn [foldr]. rewrite IH.
  by destruct (dietaryAccommodations_frame request d) as (-> & _).
Qed.

Lemma count_elaborate_adjusted request ds :
  (count_elaborate (dietaryAccommodations request <$> ds) <= count_elaborate ds)%nat.
Proof.
  induction ds as [|d ds IH]; [done|].
  rewrite fmap_cons, !count_elaborate_cons.
  pose proof (elaborate_never_gained request d) as Hmono.
  destruct (is_elaborate (dietaryAccommodations request d)) eqn:Hafter.
  - rewrite Hmono by done. lia.
  - destruct (is_elaborate d); lia.
Qed.

(** X12: after [dietaryAdjustment] on a kitchen built by [newOrder] and
    [serveDish], [total_prep_time_] is still the sum of the prep times of
    the contained dishes, and [count_elaborate_] is at least the number of
    dishes that are elaborate now: it can only over-count. *)
Theorem dietaryAdjustment_and_totals (capacity : nat) (request : DietaryRequest)
    (k : Kitchen) :
  reachable capacity k ->
  exists k' ds', dietaryAdjustment request k = Some k' /\
    wf k' /\ contents k' = Some ds' /\
    total_prep_time_ k' = wrap (sum_prep_time ds') /\
    (Z.of_nat capacity <= INT_MAX ->
     Z.of_nat (count_elaborate ds') <= count_elaborate_ k').
Proof.
  intros Hreach.
  destruct (reachable_invariant capacity k Hreach)
    as (Hwf & Hcap & ds & Hds & Ht & He).
  destruct (dietaryAdjustment_loop_spec request (item_count_ k) 0 k ds Hwf Hds)
    as (k' & Hres & Hwf' & _ & _ & Ht' & He' & Hc'); [lia|].
  rewrite take_0, drop_0 in Hc'. simpl in Hc'.
  exists k', (dietaryAccommodations request <$> ds).
  split; [done|]. split; [done|]. split; [done|]. split.
  - by rewrite Ht', Ht, sum_prep_time_adjusted.
  - intros Hcapacity. rewrite He', He.
    pose proof (count_elaborate_adjusted request ds) as Hle.
    pose proof (count_elaborate_le ds) as Hle'.
    destruct Hwf as (Hsize & _).
    pose proof (contents_length k ds Hsize Hds) as Hlen.
    rewrite wrap_in_int; [lia|]. unfold in_int, INT_MIN, INT_MAX in *. lia.
Qed.

Lemma dietaryAdjustment_loop_fixed request k ds :
  wf k -> contents k = Some ds ->
  Forall (fun d => dietaryAccommodations request d = d) ds ->
  forall n i, (i + n = item_count_ k)%nat ->
    dietaryAdjustment_loop request k i n = Some k.
Proof.
  intros Hwf Hds Hfix. pose proof Hwf as (Hle & _ & _).
  pose proof (contents_length _ _ Hle Hds) as Hlen.
  induction n as [|n IH]; intros i Hin; [done|].
  destruct (lookup_lt_is_Some_2 ds i) as [x Hx]; [lia|].
  pose proof Hds as HF. apply contents_Some in HF.
  destruct (Forall2_lookup_r _ _ _ _ _ HF Hx) as (p & Hp & Hd).
  unfold live_slots in Hp. apply lookup_take_Some in Hp as [Hp Hlt].
  pose proof Hd as Hd'. apply deref_Some in Hd' as (a & -> & Ha).
  cbn [dietaryAdjustment_loop]. rewrite Hp. cbn [mbind option_bind].
  rewrite Hd. cbn [mbind option_bind].
  rewrite Forall_forall in Hfix.
  rewrite (Hfix x) by (by eapply list_elem_of_lookup_2).
  rewrite list_insert_id by done.
  replace (mkKitchen (heap k) (items_ k) (item_count_ k)
                     (total_prep_time_ k) (count_elaborate_ k)) with k
    by (by destruct k).
  apply IH. lia.
Qed.

(** X13: a second [dietaryAdjustment] with the same request, when that
    request sets neither [low_sodium] nor [low_sugar], leaves the whole
    kitchen as the first one left it. *)
Theorem dietaryAdjustment_repeated (request : DietaryRequest) (k k' : Kitchen) :
  wf k -> low_sodium request = false -> low_sugar request = false ->
  dietaryAdjustment request k = Some k' ->
  dietaryAdjustment request k' = Some k'.
Proof.
  intros Hwf Hsodium Hsugar Hfirst.
  destruct (wf_contents k Hwf) as [ds Hds].
  destruct (dietaryAdjustment_loop_spec request (item_count_ k) 0 k ds Hwf Hds)
    as (k1 & Hres & Hwf' & _ & _ & _ & _ & Hc'); [lia|].
  unfold dietaryAdjustment, getCurrentSize in *.
  rewrite Hfirst in Hres. injection Hres as <-.
  rewrite take_0, drop_0 in Hc'. simpl in Hc'.
  apply (dietaryAdjustment_loop_fixed request k' _ Hwf' Hc'); [|lia].
  apply Forall_fmap, Forall_forall. intros d _. simpl.
  by apply accommodations_twice.
Qed.

(** ** [tallyCuisineTypes] *)

Section Cuisines.

Variable cuisine_name : CuisineType -> string.

Lemma tally_loop_spec cuisine_type k ds :
  (item_count_ k <= length (items_ k))%nat -> contents k = Some ds ->
  forall n i count, (i + n = item_count_ k)%nat ->
    tally_loop cuisine_name cuisine_type k (wrap count) i n =
    Some (wrap (count + Z.of_nat (length (of_cuisine cuisine_name cuisine_type (drop i ds))))).
Proof.
  intros Hle Hds. pose proof (contents_length _ _ Hle Hds) as Hlen.
  induction n as [|n IH]; intros i count Hin; cbn [tally_loop].
  - rewrite drop_ge by lia. simpl. by rewrite Z.add_0_r.
  - destruct (lookup_lt_is_Some_2 ds i) as [x Hx]; [lia|].
    rewrite (contents_lookup k ds i x Hds Hx). cbn [mbind option_bind].
    rewrite (drop_S ds x i Hx). unfold of_cuisine. rewrite filter_cons.
    destruct (String.eqb_spec (cuisine_name (getCuisine x)) cuisine_type) as [Heq|Hne].
    + rewrite decide_True by done. rewrite wrap_add_l, IH by lia.
      cbn [length]. do 2 f_equal. unfold of_cuisine. lia.
    + rewrite decide_False by done. by rewrite IH by lia.
Qed.

Lemma tally_labels_count (labels : list string) (ds : list Dish) :
  NoDup labels ->
  foldr (fun label acc => length (of_cuisine cuisine_name label ds) + acc)%nat 0%nat labels =
  length (filter (fun d => cuisine_name (getCuisine d) ∈ labels) ds).
Proof.
  intros Hnd. induction Hnd as [|label labels Hnotin Hnd IH]; cbn [foldr].
  - induction ds as [|d ds IHds]; [done|].
    rewrite filter_cons_False; [done|]. apply not_elem_of_nil.
  - rewrite IH. clear IH. unfold of_cuisine.
    induction ds as [|d ds IHds]; [done|].
    rewrite !filter_cons.
    destruct (decide (cuisine_name (getCuisine d) = label)) as [Heq|Hne],
             (decide (cuisine_name (getCuisine d) ∈ labels)) as [Hin|Hout],
             (decide (cuisine_name (getCuisine d) ∈ label :: labels)) as [Hc|Hc];
      try (cbn [length]; lia); exfalso.
    + apply Hnotin. by rewrite <- Heq.
    + apply Hnotin. by rewrite <- Heq.
    + apply Hc, elem_of_cons. by left.
    + apply Hc, elem_of_cons. by right.
    + by apply elem_of_cons in Hc as [?|?].
Qed.

Lemma tallies_sum (labels : list string) (ds : list Dish) :
  Z.of_nat (length ds) <= INT_MAX ->
  foldr Z.add 0
    (map (fun label => wrap (Z.of_nat (length (of_cuisine cuisine_name label ds)))) labels) =
  Z.of_nat (foldr (fun label acc => length (of_cuisine cuisine_name label ds) + acc)%nat
                  0%nat labels).
Proof.
  intros Hsize. induction labels as [|label labels IH]; [done|].
  cbn [map foldr]. rewrite IH, wrap_in_int; [lia|].
  pose proof (length_filter (fun d => cuisine_name (getCuisine d) = label) ds) as Hle.
  unfold of_cuisine, in_int, INT_MIN, INT_MAX in *. lia.
Qed.

(** X14: on a well-formed kitchen [tallyCuisineTypes] returns the number of
    contained dishes whose cuisine reads as the given text, in particular 0
    for a text that is no cuisine's.  The seven tallies [kitchenReport]
    prints are defined and add up to the number of dishes whose cuisine
    reads as one of its seven texts: never more than the number of dishes in
    the kitchen, and exactly that number when every cuisine reads as one of
    the seven. *)
Theorem tallyCuisineTypes_counts (k : Kitchen) (ds : list Dish) :
  wf k -> contents k = Some ds ->
  (forall cuisine_type,
     tallyCuisineTypes cuisine_name cuisine_type k =
     Some (wrap (Z.of_nat (length (of_cuisine cuisine_name cuisine_type ds))))) /\
  (forall cuisine_type,
     (forall c, cuisine_name c <> cuisine_type) ->
     tallyCuisineTypes cuisine_name cuisine_type k = Some 0) /\
  (exists tallies,
     kitchenReport_tallies cuisine_name k = Some tallies /\
     (Z.of_nat (getCurrentSize k) <= INT_MAX ->
      foldr Z.add 0 tallies =
        Z.of_nat (length (filter (fun d => cuisine_name (getCuisine d) ∈ report_labels) ds)) /\
      foldr Z.add 0 tallies <= Z.of_nat (getCurrentSize k) /\
      ((forall c, cuisine_name c ∈ report_labels) ->
       foldr Z.add 0 tallies = Z.of_nat (getCurrentSize k)))).
Proof.
  intros (Hle & _ & _) Hds. pose proof (contents_length _ _ Hle Hds) as Hlen.
  assert (forall cuisine_type,
     tallyCuisineTypes cuisine_name cuisine_type k =
     Some (wrap (Z.of_nat (length (of_cuisine cuisine_name cuisine_type ds))))) as Htally.
  { intros cuisine_type. unfold tallyCuisineTypes, getCurrentSize.
    change 0 with (wrap 0) at 1.
    rewrite (tally_loop_spec cuisine_type k ds Hle Hds) by lia.
    by rewrite drop_0. }
  split; [done|]. split.
  - intros cuisine_type Hnone. rewrite Htally. unfold of_cuisine.
    replace (filter _ ds) with (@nil Dish); [done|].
    symmetry. clear -Hnone. induction ds as [|d ds IH]; [done|].
    by rewrite filter_cons_False.
  - exists (map (fun label =>
                   wrap (Z.of_nat (length (of_cuisine cuisine_name label ds))))
                report_labels).
    split.
    { unfold kitchenReport_tallies, report_labels. cbn [mapM map].
      rewrite !Htally. reflexivity. }
    unfold getCurrentSize. rewrite <- Hlen. intros Hsize.
    assert (NoDup report_labels) as Hnd
      by (apply (bool_decide_unpack _); by vm_compute).
    rewrite (tallies_sum report_labels ds Hsize), (tally_labels_count _ ds Hnd).
    split; [done|]. split.
    + pose proof (length_filter
                    (fun d => cuisine_name (getCuisine d) ∈ report_labels) ds). lia.
    + intros Hall. rewrite filter_all; [done|].
      apply Forall_forall. intros d _. apply Hall.
Qed.

End Cuisines.

(** ** [releaseDishesOfCuisineType] *)

Lemma serveDish_contained d k ds :
  wf k -> contents k = Some ds -> d ∈ ds ->
  exists j k', ds !! j = Some d /\
    (forall j', (j' < j)%nat -> ds !! j' <> Some d) /\
    serveDish d k = Some (true, k') /\
    wf k' /\ contents k' = Some (swap_remove j ds) /\
    S (item_count_ k') = item_count_ k /\
    length (items_ k') = length (items_ k) /\
    (totals_agree k ds -> totals_agree k' (swap_remove j ds)).
Proof.
  intros Hwf Hds Hin.
  destruct (serveDish_present d k ds Hwf Hds Hin)
    as (j & a & Hj & Hja & Hjd & Hfirst & Hres).
  destruct (take_out_spec k ds j a d Hwf Hds Hja Hj Hjd)
    as (Hwf' & Hc & _ & Hitems & Hcount & Ht & He).
  exists j, (take_out k (Some a) d). split; [done|]. split.
  { intros j' Hj' Heq. by apply (Hfirst j' d). }
  split; [done|]. split; [done|]. split; [done|]. split; [lia|].
  split; [by rewrite Hitems, length_insert|].
  intros [Hta Hea].
  pose proof (swap_remove_perm j ds d Hjd) as Hperm.
  pose proof (sum_prep_time_perm _ _ Hperm) as Hsum. simpl in Hsum.
  pose proof (count_elaborate_perm _ _ Hperm) as Hcnt.
  rewrite count_elaborate_cons in Hcnt. split.
  - rewrite Ht, Hta, wrap_sub_l. f_equal. lia.
  - rewrite He, Hea. destruct (is_elaborate d).
    + rewrite wrap_sub_l. f_equal. lia.
    + f_equal. lia.
Qed.

Section CuisineRelease.

Variables (cuisine_name : CuisineType -> string) (cuisine_type : string).

Local Abbreviation reads_as := (fun d : Dish => cuisine_name (getCuisine d) = cuisine_type).
Local Abbreviation loop := (releaseCuisine_loop cuisine_name cuisine_type).

Lemma releaseCuisine_loop_spec fuel : forall k ds count i,
  wf k -> contents k = Some ds -> (item_count_ k - i <= fuel)%nat ->
  exists k' ds' served,
    loop k (wrap count) i fuel = Some (wrap (count + Z.of_nat (length served)), k') /\
    wf k' /\ contents k' = Some ds' /\
    ds ≡ₚ served ++ ds' /\ Forall reads_as served /\
    getCapacity k' = getCapacity k /\
    (totals_agree k ds -> totals_agree k' ds').
Proof.
  induction fuel as [|fuel IH]; intros k ds count i Hwf Hds Hfuel.
  - exists k, ds, []. simpl. rewrite Z.add_0_r.
    split; [done|]. split; [done|]. split; [done|]. split; [done|].
    split; [apply Forall_nil_2|]. by split.
  - cbn [releaseCuisine_loop]. unfold getCurrentSize.
    case_bool_decide as Hi.
    2:{ exists k, ds, []. simpl. rewrite Z.add_0_r.
        split; [done|]. split; [done|]. split; [done|]. split; [done|].
        split; [apply Forall_nil_2|]. by split. }
    pose proof Hwf as (Hle & _ & _).
    pose proof (contents_length _ _ Hle Hds) as Hlen.
    destruct (lookup_lt_is_Some_2 ds i) as [x Hx]; [lia|].
    rewrite (contents_lookup k ds i x Hds Hx). cbn [mbind option_bind].
    destruct (String.eqb_spec (cuisine_name (getCuisine x)) cuisine_type) as [Heq|Hne].
    + assert (x ∈ ds) as Hin by (by eapply list_elem_of_lookup_2).
      destruct (serveDish_contained x k ds Hwf Hds Hin)
        as (j & k1 & Hj & _ & -> & Hwf1 & Hc1 & Hcount1 & Hitems1 & Hagree1).
      cbn [mbind option_bind snd]. rewrite wrap_add_l.
      destruct (IH k1 (swap_remove j ds) (count + 1) (S i) Hwf1 Hc1)
        as (k' & ds' & served & Hres & Hwf' & Hc' & Hperm & Hall & Hcap & Hagree);
        [lia|].
      exists k', ds', (x :: served). split.
      { rewrite Hres. do 3 f_equal. cbn [length]. lia. }
      split; [done|]. split; [done|]. split.
      { rewrite (swap_remove_perm j ds x Hj). simpl. by rewrite Hperm. }
      split; [by apply Forall_cons|]. split; [|tauto].
      by rewrite Hcap.
    + apply IH; [done|done|lia].
Qed.

Lemma releaseCuisine_loop_fuel fuel : forall k count i,
  wf k -> (item_count_ k - i <= fuel)%nat ->
  loop k count i (S fuel) = loop k count i fuel.
Proof.
  induction fuel as [|fuel IH]; intros k count i Hwf Hfuel.
  - cbn [releaseCuisine_loop]. unfold getCurrentSize.
    rewrite bool_decide_eq_false_2 by lia. done.
  - destruct (wf_contents k Hwf) as [ds Hds].
    change (loop k count i (S (S fuel))) with
      (if bool_decide (i < getCurrentSize k)%nat then
         x ← dish_at k i;
         if String.eqb (cuisine_name (getCuisine x)) cuisine_type then
           r ← serveDish x k; loop r.2 (wrap (count + 1)) (S i) (S fuel)
         else loop k count (S i) (S fuel)
       else Some (count, k)).
    change (loop k count i (S fuel)) with
      (if bool_decide (i < getCurrentSize k)%nat then
         x ← dish_at k i;
         if String.eqb (cuisine_name (getCuisine x)) cuisine_type then
           r ← serveDish x k; loop r.2 (wrap (count + 1)) (S i) fuel
         else loop k count (S i) fuel
       else Some (count, k)).
    unfold getCurrentSize. case_bool_decide as Hi; [|done].
    pose proof Hwf as (Hle & _ & _).
    pose proof (contents_length _ _ Hle Hds) as Hlen.
    destruct (lookup_lt_is_Some_2 ds i) as [x Hx]; [lia|].
    rewrite (contents_lookup k ds i x Hds Hx). cbn [mbind option_bind].
    destruct (String.eqb (cuisine_name (getCuisine x)) cuisine_type).
    + assert (x ∈ ds) as Hin by (by eapply list_elem_of_lookup_2).
      destruct (serveDish_contained x k ds Hwf Hds Hin)
        as (j & k1 & _ & _ & -> & Hwf1 & _ & Hcount1 & _ & _).
      cbn [mbind option_bind snd]. apply IH; [done|lia].
    + apply IH; [done|lia].
Qed.

(** X15: on every well-formed kitchen [releaseDishesOfCuisineType] is
    defined and leaves a well-formed kitchen of the same capacity.  The
    dishes it serves all read as the given cuisine, every other dish stays,
    the result is the number of dishes served, and totals that agreed with
    the contents before still agree after.  Iterations beyond the size at
    entry never run. *)
Theorem releaseDishesOfCuisineType_serves_only_matches (k : Kitchen) (ds : list Dish) :
  wf k -> contents k = Some ds ->
  exists k' ds' served,
    releaseDishesOfCuisineType cuisine_name cuisine_type k =
      Some (wrap (Z.of_nat (length served)), k') /\
    (forall fuel, (getCurrentSize k <= fuel)%nat ->
       loop k 0 0 fuel = releaseDishesOfCuisineType cuisine_name cuisine_type k) /\
    wf k' /\ contents k' = Some ds' /\
    ds ≡ₚ served ++ ds' /\ Forall reads_as served /\
    filter (fun d => ~ reads_as d) ds' ≡ₚ filter (fun d => ~ reads_as d) ds /\
    getCapacity k' = getCapacity k /\
    (totals_agree k ds -> totals_agree k' ds').
Proof.
  intros Hwf Hds.
  destruct (releaseCuisine_loop_spec (item_count_ k) k ds 0 0 Hwf Hds)
    as (k' & ds' & served & Hres & Hwf' & Hc' & Hperm & Hall & Hcap & Hagree); [lia|].
  exists k', ds', served. split; [exact Hres|]. split.
  { intros fuel Hfuel. unfold releaseDishesOfCuisineType, getCurrentSize in *.
    induction Hfuel as [|fuel Hfuel IH]; [done|].
    rewrite releaseCuisine_loop_fuel by (done || lia). exact IH. }
  split; [done|]. split; [done|]. split; [done|]. split; [done|].
  split; [|done].
  rewrite Hperm, filter_app.
  replace (filter (fun d => ~ reads_as d) served) with (@nil Dish); [done|].
  symmetry. clear -Hall. induction Hall as [|d l Hd _ IH]; [done|].
  rewrite filter_cons_False by (intros Hn; by apply Hn). done.
Qed.

Lemma swap_remove_head {A} (i : nat) (l : list A) :
  (0 < i < length l)%nat -> swap_remove i l !! 0%nat = l !! 0%nat.
Proof.
  intros Hi. unfold swap_remove.
  destruct (lookup_lt_is_Some_2 l (length l - 1)) as [y Hy]; [lia|]. rewrite Hy.
  rewrite lookup_take_lt by lia. apply list_lookup_insert_ne. lia.
Qed.

Lemma swap_remove_NoDup {A} (i : nat) (l : list A) :
  NoDup l -> NoDup (swap_remove i l).
Proof.
  intros Hnd. destruct (l !! i) as [x|] eqn:Hx.
  - pose proof (swap_remove_perm i l x Hx) as Hperm.
    rewrite Hperm in Hnd. by apply NoDup_cons in Hnd as [_ ?].
  - unfold swap_remove. destruct (l !! (length l - 1)%nat) as [y|] eqn:Hy; [|done].
    rewrite list_insert_ge by (by apply lookup_ge_None).
    rewrite <- (take_drop (length l - 1) l) in Hnd.
    by apply NoDup_app in Hnd as [? _].
Qed.

Lemma releaseCuisine_loop_keeps_head fuel : forall k ds count i y,
  wf k -> contents k = Some ds -> NoDup ds -> (0 < i)%nat ->
  ds !! 0%nat = Some y ->
  exists count' k' ds',
    loop k count i fuel = Some (count', k') /\
    contents k' = Some ds' /\ ds' !! 0%nat = Some y.
Proof.
  induction fuel as [|fuel IH]; intros k ds count i y Hwf Hds Hnd Hi Hy.
  - by exists count, k, ds.
  - cbn [releaseCuisine_loop]. unfold getCurrentSize.
    case_bool_decide as Hlt; [|by exists count, k, ds].
    pose proof Hwf as (Hle & _ & _).
    pose proof (contents_length _ _ Hle Hds) as Hlen.
    destruct (lookup_lt_is_Some_2 ds i) as [x Hx]; [lia|].
    rewrite (contents_lookup k ds i x Hds Hx). cbn [mbind option_bind].
    destruct (String.eqb (cuisine_name (getCuisine x)) cuisine_type).
    + assert (x ∈ ds) as Hin by (by eapply list_elem_of_lookup_2).
      destruct (serveDish_contained x k ds Hwf Hds Hin)
        as (j & k1 & Hj & _ & -> & Hwf1 & Hc1 & _ & _ & _).
      cbn [mbind option_bind snd].
      assert (j = i) as -> by (by eapply NoDup_lookup).
      apply (IH k1 (swap_remove i ds)); [done|done| |lia|].
      * by apply swap_remove_NoDup.
      * rewrite swap_remove_head by lia. done.
    + apply (IH k ds); [done|done|done|lia|done].
Qed.

(** X16: [releaseDishesOfCuisineType] can leave dishes of the cuisine behind.
    In a kitchen of pairwise different dishes whose first and last dish both
    read as the cuisine, the first is served, the last is moved into its
    slot, and the scan, which goes on at index 1, never looks at it: the
    last dish is still contained after the call. *)
Theorem releaseDishesOfCuisineType_skips_moved_dish (k : Kitchen)
    (first_dish last_dish : Dish) (middle : list Dish) :
  wf k -> contents k = Some (first_dish :: middle ++ [last_dish]) ->
  NoDup (first_dish :: middle ++ [last_dish]) ->
  reads_as first_dish -> reads_as last_dish ->
  exists count k' ds',
    releaseDishesOfCuisineType cuisine_name cuisine_type k = Some (count, k') /\
    contents k' = Some ds' /\ ds' !! 0%nat = Some last_dish /\
    ~ Forall (fun d => ~ reads_as d) ds'.
Proof.
  intros Hwf Hds Hnd Hfirst Hlast.
  pose proof Hwf as (Hle & _ & _).
  pose proof (contents_length _ _ Hle Hds) as Hlen.
  simpl in Hlen. rewrite length_app in Hlen. simpl in Hlen.
  unfold releaseDishesOfCuisineType, getCurrentSize. rewrite <- Hlen.
  cbn [releaseCuisine_loop]. unfold getCurrentSize.
  rewrite bool_decide_eq_true_2 by lia.
  rewrite (contents_lookup k _ 0 first_dish Hds) by done. cbn [mbind option_bind].
  rewrite (proj2 (String.eqb_eq _ _) Hfirst).
  assert (first_dish ∈ first_dish :: middle ++ [last_dish]) as Hin by left.
  destruct (serveDish_contained first_dish k _ Hwf Hds Hin)
    as (j & k1 & Hj & _ & -> & Hwf1 & Hc1 & _ & _).
  cbn [mbind option_bind snd].
  assert (j = 0%nat) as -> by (by eapply NoDup_lookup).
  assert (swap_remove 0 (first_dish :: middle ++ [last_dish]) = last_dish :: middle) as Hswap.
  { change (first_dish :: middle ++ [last_dish]) with ((first_dish :: middle) ++ [last_dish]).
    rewrite swap_remove_snoc. by rewrite decide_False by (simpl; lia). }
  rewrite Hswap in Hc1.
  destruct (releaseCuisine_loop_keeps_head (length middle + 1) k1 (last_dish :: middle)
              (wrap (0 + 1)) 1 last_dish Hwf1 Hc1)
    as (count' & k' & ds' & Hres & Hc' & Hhead); [|lia|done|].
  { rewrite <- Hswap. by apply swap_remove_NoDup. }
  exists count', k', ds'. split; [done|]. split; [done|]. split; [done|].
  intros Hnone. rewrite Forall_forall in Hnone.
  apply (Hnone last_dish); [|done]. by eapply list_elem_of_lookup_2.
Qed.

End CuisineRelease.

(** * [Kitchen::split] *)

Lemma append_cons c s t : String c s +:+ t = String c (s +:+ t).
Proof. reflexivity. Qed.

Lemma append_nil_l s : "" +:+ s = s.
Proof. reflexivity. Qed.

Lemma append_nil_r s : s +:+ "" = s.
Proof. induction s as [|c s IH]; [done|]. by rewrite append_cons, IH. Qed.

Lemma append_assoc s1 s2 s3 : (s1 +:+ s2) +:+ s3 = s1 +:+ (s2 +:+ s3).
Proof. induction s1 as [|c s1 IH]; [done|]. by rewrite !append_cons, IH. Qed.

Lemma has_char_append c s1 s2 :
  has_char c (s1 +:+ s2) = has_char c s1 || has_char c s2.
Proof.
  induction s1 as [|c' s1 IH]; [done|].
  rewrite append_cons. simpl. by rewrite IH, orb_assoc.
Qed.

Lemma split_loop_clean delimiter str : forall token extracted,
  has_char delimiter token = false ->
  Forall (fun t => has_char delimiter t = false)
         (split_loop delimiter str token extracted).
Proof.
  induction str as [|c rest IH]; intros token extracted Htoken; simpl.
  - destruct extracted; [by apply Forall_singleton|done].
  - destruct (Ascii.eqb c delimiter) eqn:Hc.
    + apply Forall_cons. split; [done|]. by apply IH.
    + apply IH. rewrite has_char_append, Htoken. simpl. by rewrite Hc.
Qed.

Lemma split_loop_length delimiter str : forall token extracted,
  (length (split_loop delimiter str token extracted) <= count_char delimiter str + 1)%nat.
Proof.
  induction str as [|c rest IH]; intros token extracted; simpl.
  - destruct extracted; simpl; lia.
  - destruct (Ascii.eqb c delimiter); simpl.
    + pose proof (IH ""%string false). lia.
    + apply IH.
Qed.

(** Reading a piece without delimiters only extends the current token. *)
Lemma split_loop_token delimiter t rest : forall token extracted,
  has_char delimiter t = false ->
  split_loop delimiter (t +:+ rest) token extracted =
  split_loop delimiter rest (token +:+ t) (extracted || negb (String.eqb t "")).
Proof.
  induction t as [|c t IH]; intros token extracted Ht.
  - rewrite append_nil_l, append_nil_r. simpl. by rewrite orb_false_r.
  - simpl in Ht. apply orb_false_iff in Ht as [Hc Ht].
    rewrite append_cons. simpl. rewrite Hc, IH by done.
    rewrite append_assoc, append_cons, append_nil_l. by rewrite orb_true_r.
Qed.

Lemma split_join delimiter tokens :
  Forall (fun t => has_char delimiter t = false) tokens ->
  last tokens <> Some ""%string ->
  split (join delimiter tokens) delimiter = tokens.
Proof.
  unfold split. induction 1 as [|t tokens Ht Htokens IH]; intros Hlast; [done|].
  destruct tokens as [|t' tokens].
  - simpl. rewrite <- (append_nil_r t) at 1.
    rewrite split_loop_token by done. simpl.
    destruct (String.eqb_spec t "") as [->|_]; [done|done].
  - change (join delimiter (t :: t' :: tokens))
      with (t +:+ String delimiter (join delimiter (t' :: tokens))).
    rewrite split_loop_token by done. rewrite append_nil_l. simpl.
    rewrite Ascii.eqb_refl. f_equal. apply IH. by rewrite last_cons_cons in Hlast.
Qed.

Lemma split_loop_started delimiter str : forall token,
  split_loop delimiter str token true <> [].
Proof.
  induction str as [|c rest IH]; intros token; simpl; [done|].
  destruct (Ascii.eqb c delimiter); [done|apply IH].
Qed.

Lemma split_loop_nonempty delimiter c rest token extracted :
  split_loop delimiter (String c rest) token extracted <> [].
Proof.
  simpl. destruct (Ascii.eqb c delimiter); [done|apply split_loop_started].
Qed.

Lemma join_cons delimiter t tokens :
  tokens <> [] ->
  join delimiter (t :: tokens) = t +:+ String delimiter (join delimiter tokens).
Proof. by destruct tokens. Qed.

Lemma join_split_loop delimiter str : forall token extracted,
  (extracted = false -> token = ""%string) ->
  exists tail, (tail = ""%string \/ tail = String delimiter "") /\
    token +:+ str = join delimiter (split_loop delimiter str token extracted) +:+ tail.
Proof.
  induction str as [|c rest IH]; intros token extracted Hflag.
  - exists ""%string. split; [by left|]. simpl.
    destruct extracted; [by rewrite !append_nil_r|]. by rewrite Hflag.
  - cbn [split_loop]. destruct (Ascii.eqb_spec c delimiter) as [->|Hc].
    + destruct rest as [|c' rest'].
      * exists (String delimiter ""). split; [by right|done].
      * destruct (IH ""%string false) as (tail & Htail & Heq); [done|].
        exists tail. split; [done|].
        rewrite join_cons by apply split_loop_nonempty.
        rewrite append_assoc, append_cons. rewrite append_nil_l in Heq.
        by rewrite <- Heq.
    + destruct (IH (token +:+ String c "") true) as (tail & Htail & Heq); [done|].
      exists tail. split; [done|]. rewrite <- Heq, append_assoc. done.
Qed.

(** X17: [split] loses nothing but one trailing delimiter.  No token contains
    the delimiter; writing the tokens with the delimiter between them gives
    the text back, up to a delimiter at its very end; and there is at most
    one token more than there are delimiters. *)
Theorem split_is_lossless (str : string) (delimiter : ascii) :
  Forall (fun t => has_char delimiter t = false) (split str delimiter) /\
  (exists tail, (tail = ""%string \/ tail = String delimiter "") /\
     str = join delimiter (split str delimiter) +:+ tail) /\
  (length (split str delimiter) <= count_char delimiter str + 1)%nat.
Proof.
  split; [by apply split_loop_clean|]. split; [|apply split_loop_length].
  destruct (join_split_loop delimiter str ""%string false) as (tail & Htail & Heq); [done|].
  by exists tail.
Qed.

(** X18: [split] reads back what was written with delimiters: for tokens
    that do not contain the delimiter, the last of them not empty, splitting
    their delimiter-separated text gives exactly those tokens. *)
Theorem split_reads_back (delimiter : ascii) (tokens : list string) :
  Forall (fun t => has_char delimiter t = false) tokens ->
  last tokens <> Some ""%string ->
  split (join delimiter tokens) delimiter = tokens.
Proof. apply split_join. Qed.

(** * Reading a kitchen from a file *)

Section Loading.

Variables (stoi : string -> option Z) (stod : string -> option spec_float).

Lemma place_order_total d k : exists b k', place_order d k = Some (b, k').
Proof.
  destruct (decide (item_count_ k = length (items_ k))).
  - rewrite place_order_full by done. eauto.
  - rewrite place_order_room by done. eauto.
Qed.

Lemma process_line_step capacity line k k' :
  reachable capacity k -> process_line stoi stod line k = Some k' ->
  reachable capacity k'.
Proof.
  intros Hreach. unfold process_line.
  assert (forall d, snd <$> place_order d k = Some k' -> reachable capacity k') as Horder.
  { intros d Hd. destruct (place_order d k) as [[b k1]|] eqn:Hstep; [|done].
    simpl in Hd. injection Hd as <-. by eapply reach_order. }
  destruct (split line ",") as [|t0 [|t1 [|t2 [|t3 [|t4 [|t5 [|t6 rest]]]]]]];
    try (by intros [= <-]).
  destruct (stoi t3) as [prep|]; [|by intros [= <-]].
  destruct (stod t4) as [price|]; [|by intros [= <-]].
  cbv zeta.
  destruct (String.eqb t0 "APPETIZER");
    [|destruct (String.eqb t0 "MAINCOURSE");
      [|destruct (String.eqb t0 "DESSERT"); [|by intros [= <-]]]].
  all: destruct (split t6 ";" !! 0%nat) as [a0|]; [|done];
       destruct (split t6 ";" !! 1%nat) as [a1|]; [|done];
       cbn [mbind option_bind].
  - destruct (stoi a1); [|by intros [= <-]].
    destruct (split t6 ";" !! 2%nat) as [a2|]; [|done]. apply Horder.
  - destruct (split t6 ";" !! 2%nat) as [a2|]; [|done]. apply Horder.
  - destruct (stoi a1); [|by intros [= <-]].
    destruct (split t6 ";" !! 2%nat) as [a2|]; [|done]. apply Horder.
Qed.

Lemma load_lines_reachable capacity lines : forall k k',
  reachable capacity k -> load_lines stoi stod lines k = Some k' ->
  reachable capacity k'.
Proof.
  induction lines as [|line lines IH]; intros k k' Hreach Hload; simpl in Hload.
  - by injection Hload as <-.
  - destruct (process_line stoi stod line k) as [k1|] eqn:Hline; [|done].
    simpl in Hload. eapply IH; [|exact Hload]. by eapply process_line_step.
Qed.

(** X19: whatever the file holds, a kitchen that the constructor delivers is
    one that [newOrder] calls alone could have built: it is well-formed,
    holds at most [capacity] dishes, and its two totals agree with the
    dishes it contains.  A file that cannot be opened, an empty file and a
    file with a header line only give the empty kitchen. *)
Theorem Kitchen_from_file_is_consistent (capacity : nat) (file : option string)
    (k : Kitchen) :
  Kitchen_from_file capacity stoi stod file = Some k ->
  (reachable capacity k /\ wf k /\ getCapacity k = capacity /\
   exists ds, contents k = Some ds /\ (length ds <= capacity)%nat /\
     totals_agree k ds) /\
  (file = None \/ (exists text, file = Some text /\ count_char "010" text = 0%nat) ->
   k = Kitchen_new capacity).
Proof.
  intros Hload.
  assert (reachable capacity k) as Hreach.
  { destruct file as [text|]; simpl in Hload.
    - eapply load_lines_reachable; [apply reach_new|exact Hload].
    - injection Hload as <-. apply reach_new. }
  split.
  - destruct (reachable_invariant capacity k Hreach)
      as (Hwf & Hcap & ds & Hds & Hagree).
    split; [done|]. split; [done|]. split; [done|].
    exists ds. split; [done|]. split; [|done].
    destruct Hwf as (Hle & _). rewrite (contents_length k ds Hle Hds). lia.
  - intros [->|(text & -> & Hnone)]; simpl in Hload.
    + by injection Hload as <-.
    + pose proof (split_loop_length "010" text ""%string false) as Hlen.
      fold (split text "010") in Hlen. rewrite Hnone in Hlen.
      destruct (split text "010") as [|header [|line lines]]; simpl in *; [| |lia].
      * by injection Hload as <-.
      * by injection Hload as <-.
Qed.

(** X20: the records the reading loop skips.  A line with fewer than six
    commas, a line whose first field is none of the three dish types, and a
    line whose fourth or fifth field [stoi] or [stod] rejects, each leave
    the kitchen as it is. *)
Theorem process_line_skips (line : string) (k : Kitchen) :
  ((count_char "," line < 6)%nat -> process_line stoi stod line k = Some k) /\
  (forall t0 rest, split line "," = t0 :: rest ->
     t0 ∉ ["APPETIZER"; "MAINCOURSE"; "DESSERT"]%string ->
     process_line stoi stod line k = Some k) /\
  (forall t0 t1 t2 t3 t4 rest, split line "," = t0 :: t1 :: t2 :: t3 :: t4 :: rest ->
     stoi t3 = None \/ stod t4 = None ->
     process_line stoi stod line k = Some k).
Proof.
  split; [|split].
  - intros Hfew. unfold process_line.
    pose proof (split_loop_length "," line ""%string false) as Hlen.
    fold (split line ",") in Hlen.
    destruct (split line ",") as [|t0 [|t1 [|t2 [|t3 [|t4 [|t5 [|t6 rest]]]]]]];
      try done. simpl in Hlen. lia.
  - intros t0 rest Hsplit Hkind. unfold process_line. rewrite Hsplit.
    destruct rest as [|t1 [|t2 [|t3 [|t4 [|t5 [|t6 rest]]]]]]; try done.
    destruct (stoi t3); [|done]. destruct (stod t4); [|done]. cbv zeta.
    destruct (String.eqb_spec t0 "APPETIZER") as [->|_];
      [exfalso; apply Hkind; repeat constructor|].
    destruct (String.eqb_spec t0 "MAINCOURSE") as [->|_];
      [exfalso; apply Hkind; repeat constructor|].
    destruct (String.eqb_spec t0 "DESSERT") as [->|_];
      [exfalso; apply Hkind; repeat constructor|]. done.
  - intros t0 t1 t2 t3 t4 rest Hsplit Hbad. unfold process_line. rewrite Hsplit.
    destruct rest as [|t5 [|t6 rest]]; try done.
    destruct Hbad as [-> | Hbad]; [done|].
    destruct (stoi t3); [|done]. by rewrite Hbad.
Qed.

Lemma has_char_join c delimiter tokens :
  Ascii.eqb delimiter c = false ->
  Forall (fun t => has_char c t = false) tokens ->
  has_char c (join delimiter tokens) = false.
Proof.
  intros Hne. induction 1 as [|t tokens Ht _ IH]; [done|].
  destruct tokens as [|t' tokens]; [done|].
  change (join delimiter (t :: t' :: tokens))
    with (t +:+ String delimiter (join delimiter (t' :: tokens))).
  rewrite has_char_append, Ht.
  change (has_char c (String delimiter (join delimiter (t' :: tokens))))
    with (Ascii.eqb delimiter c || has_char c (join delimiter (t' :: tokens))).
  by rewrite Hne, IH.
Qed.

Lemma record_line_fields dish_type name ingredients prep_time price cuisine a0 a1 a2 :
  Forall plain (dish_type :: name :: prep_time :: price :: cuisine :: a0 :: a1 :: a2
                :: ingredients) ->
  a2 <> ""%string ->
  split (record_line dish_type name ingredients prep_time price cuisine a0 a1 a2) "," =
    [dish_type; name; join ";" ingredients; prep_time; price; cuisine;
     join ";" [a0; a1; a2]] /\
  split (join ";" [a0; a1; a2]) ";" = [a0; a1; a2].
Proof.
  intros Hplain Ha2.
  repeat (apply Forall_cons in Hplain as [[? ?] Hplain]).
  assert (Forall (fun t => has_char "," t = false) ingredients) as Hcomma.
  { eapply Forall_impl; [exact Hplain|]. by intros t [? _]. }
  split.
  - apply split_join.
    + repeat (apply Forall_cons; split; [done|]).
      apply Forall_cons. split; [by apply has_char_join|].
      repeat (apply Forall_cons; split; [done|]).
      apply Forall_cons. split; [|done].
      apply has_char_join; [done|]. by repeat (apply Forall_cons; split; [done|]).
    + simpl. destruct a0; discriminate.
  - apply split_join.
    + by repeat (apply Forall_cons; split; [done|]).
    + simpl. congruence.
Qed.

(** X21: a written record is read back field by field.  For fields without
    commas and semicolons, the last ingredient and the last attribute not
    empty, and numbers that [stoi] and [stod] accept, the loop body orders
    exactly the dish of the record: an appetizer, a main course without side
    dishes, or a dessert. *)
Theorem process_line_reads_record (k : Kitchen) (name : string)
    (ingredients : list string) (prep_text price_text cuisine a0 a1 a2 : string)
    (prep_time : Z) (price : spec_float) :
  Forall plain (name :: prep_text :: price_text :: cuisine :: a0 :: a1 :: a2
                :: ingredients) ->
  last ingredients <> Some ""%string -> a2 <> ""%string ->
  stoi prep_text = Some prep_time -> stod price_text = Some price ->
  let base := mkBase name ingredients prep_time price (stringToCuisineType cuisine) in
  let line kind := record_line kind name ingredients prep_text price_text cuisine a0 a1 a2 in
  (forall level, stoi a1 = Some level ->
     process_line stoi stod (line "APPETIZER"%string) k =
       snd <$> place_order
         (AnAppetizer (mkAppetizer base (stringToServingStyle a0) level
                                   (String.eqb a2 "true"))) k) /\
  process_line stoi stod (line "MAINCOURSE"%string) k =
    snd <$> place_order
      (AMainCourse (mkMainCourse base (stringToCookingMethod a0) a1 []
                                 (String.eqb a2 "true"))) k /\
  (forall level, stoi a1 = Some level ->
     process_line stoi stod (line "DESSERT"%string) k =
       snd <$> place_order
         (ADessert (mkDessert base (stringToFlavorProfile a0) level
                              (String.eqb a2 "true"))) k).
Proof.
  intros Hplain Hlast Ha2 Hprep Hprice base line.
  assert (split (join ";" ingredients) ";" = ingredients) as Hing.
  { apply split_join; [|done].
    do 7 (apply Forall_cons in Hplain as [_ Hplain]).
    eapply Forall_impl; [exact Hplain|]. by intros t [_ ?]. }
  assert (forall kind, plain kind ->
            split (line kind) "," =
              [kind; name; join ";" ingredients; prep_text; price_text; cuisine;
               join ";" [a0; a1; a2]] /\
            split (join ";" [a0; a1; a2]) ";" = [a0; a1; a2]) as Hfields.
  { intros kind Hkind. apply record_line_fields; [|done]. by apply Forall_cons. }
  split; [|split].
  - intros level Hlevel.
    destruct (Hfields "APPETIZER"%string) as [Hline Hattrs]; [by vm_compute|].
    unfold process_line. rewrite Hline, Hprep, Hprice. cbv zeta.
    rewrite Hattrs, Hing. simpl. by rewrite Hlevel.
  - destruct (Hfields "MAINCOURSE"%string) as [Hline Hattrs]; [by vm_compute|].
    unfold process_line. rewrite Hline, Hprep, Hprice. cbv zeta.
    by rewrite Hattrs, Hing.
  - intros level Hlevel.
    destruct (Hfields "DESSERT"%string) as [Hline Hattrs]; [by vm_compute|].
    unfold process_line. rewrite Hline, Hprep, Hprice. cbv zeta.
    rewrite Hattrs, Hing. simpl. by rewrite Hlevel.
Qed.

End Loading.

(** * Enum conversions on the recognised tags *)

Ltac tag_cases H :=
  repeat (apply elem_of_cons in H as [->|H]); [..|by apply elem_of_nil in H].

(** X22: two different recognised tags are never read as the same
    enumeration member. *)
Theorem recognised_tags_are_told_apart (s t : string) :
  s <> t ->
  (s ∈ cuisine_tags -> t ∈ cuisine_tags ->
   stringToCuisineType s <> stringToCuisineType t) /\
  (s ∈ serving_style_tags -> t ∈ serving_style_tags ->
   stringToServingStyle s <> stringToServingStyle t) /\
  (s ∈ cooking_method_tags -> t ∈ cooking_method_tags ->
   stringToCookingMethod s <> stringToCookingMethod t) /\
  (s ∈ flavor_profile_tags -> t ∈ flavor_profile_tags ->
   stringToFlavorProfile s <> stringToFlavorProfile t).
Proof.
  intros Hne.
  split; [|split; [|split]]; intros Hs Ht;
    unfold cuisine_tags, serving_style_tags, cooking_method_tags,
           flavor_profile_tags in *;
    tag_cases Hs; tag_cases Ht; first [by destruct Hne | by vm_compute].
Qed.

(** * The further statements on concrete dishes and kitchens *)

Lemma recognised_tags_are_told_apart_witness :
  stringToCuisineType "FRENCH" <> stringToCuisineType "ITALIAN" /\
  stringToCookingMethod "GRILLED" <> stringToCookingMethod "RAW".
Proof.
  split.
  - destruct (recognised_tags_are_told_apart "FRENCH" "ITALIAN") as (Hcuisine & _);
      [discriminate|].
    apply Hcuisine; apply (bool_decide_unpack _); by vm_compute.
  - destruct (recognised_tags_are_told_apart "GRILLED" "RAW") as (_ & _ & Hmethod & _);
      [discriminate|].
    apply Hmethod; apply (bool_decide_unpack _); by vm_compute.
Defined.

Lemma vegetarian_request_leaves_no_meat_witness :
  Forall (fun x => x ∉ non_vegetarian)
    (ingredients_ (appetizer_base (AppetizerOps.dietaryAccommodations only_vegetarian bruschetta))) /\
  protein_type_ (MainCourseOps.dietaryAccommodations only_vegetarian carbonara) = "Tofu"%string.
Proof.
  destruct (vegetarian_request_leaves_no_meat only_vegetarian eq_refl) as [Ha Hm].
  split; [apply (Ha bruschetta) | apply (Hm carbonara)].
Defined.

Lemma vegan_request_leaves_no_dairy_witness :
  Forall (fun x => x ∉ dairy_and_eggs)
    (ingredients_ (main_base (MainCourseOps.dietaryAccommodations only_vegan carbonara))) /\
  Forall (fun x => x ∉ dairy_and_eggs)
    (ingredients_ (dessert_base (DessertOps.dietaryAccommodations only_vegan praline))).
Proof.
  destruct (vegan_request_leaves_no_dairy only_vegan eq_refl) as [Hm Hs].
  split; [apply (Hm carbonara) | apply (Hs praline)].
Defined.

Lemma gluten_free_request_witness :
  Forall (fun x => x ∉ gluten_containing)
    (ingredients_ (appetizer_base (AppetizerOps.dietaryAccommodations only_gluten_free bruschetta))) /\
  side_dishes_ (MainCourseOps.dietaryAccommodations only_gluten_free carbonara) =
    [mkSideDish "Salad" SALAD].
Proof.
  destruct (gluten_free_request only_gluten_free eq_refl) as [Ha Hm].
  split; [apply (Ha bruschetta)|].
  destruct (Hm carbonara) as (_ & Hsides & _). by rewrite Hsides.
Defined.

Lemma nut_free_request_leaves_no_nuts_witness :
  contains_nuts_ (DessertOps.dietaryAccommodations only_nut_free praline) = false /\
  ingredients_ (dessert_base (DessertOps.dietaryAccommodations only_nut_free praline)) =
    ["Sugar"; "Cream"]%string.
Proof.
  destruct (nut_free_request_leaves_no_nuts only_nut_free praline eq_refl)
    as (Hflag & _ & Hlist).
  split; [exact Hflag|]. by rewrite (Hlist eq_refl).
Defined.

Lemma dietaryAccommodations_never_adds_witness :
  is_elaborate (dietaryAccommodations only_vegetarian toast) = false.
Proof.
  destruct (dietaryAccommodations_never_adds only_vegetarian toast) as [_ Hstays].
  by apply Hstays.
Defined.

Lemma dietaryAccommodations_repeated_witness :
  dietaryAccommodations only_vegetarian
    (dietaryAccommodations only_vegetarian (AnAppetizer skewers)) =
  dietaryAccommodations only_vegetarian (AnAppetizer skewers).
Proof.
  destruct (dietaryAccommodations_repeated only_vegetarian (AnAppetizer skewers))
    as [_ Hsame].
  by apply Hsame.
Defined.

Lemma tasting_reachable : reachable 4 tasting.
Proof.
  apply (place_orders_reachable 4
           [side_order "Crostini" 10; side_order "Bruschetta" 20; side_order "Focaccia" 21]
           (Kitchen_new 4)); [apply reach_new | by vm_compute].
Qed.

Lemma getters_report_contents_witness :
  exists ds, contents after_service = Some ds /\
    getPrepTimeSum after_service = wrap (sum_prep_time ds) /\
    (Z.of_nat 3 <= INT_MAX ->
     elaborateDishCount after_service = Z.of_nat (count_elaborate ds)).
Proof. exact (getters_report_contents 3 after_service after_service_reachable). Defined.

Lemma serveDish_found_witness :
  exists k' ds', serveDish (ADessert custard) dinner = Some (true, k') /\
    contents k' = Some ds' /\
    [stew; ADessert custard; praline_cake] ≡ₚ ADessert custard :: ds'.
Proof.
  assert (ADessert custard ∈ [stew; ADessert custard; praline_cake]) as Hin
    by (apply (bool_decide_unpack _); by vm_compute).
  destruct (serveDish_found dinner _ (ADessert custard) dinner_wf dinner_contents Hin)
    as (k' & ds' & Hres & _ & Hc & Hperm & _).
  exists k', ds'. split; [exact Hres|]. split; [exact Hc|exact Hperm].
Defined.

Lemma newOrder_with_room_witness :
  exists k', place_order toast tasting = Some (true, k') /\
    contents k' = Some [side_order "Crostini" 10; side_order "Bruschetta" 20;
                        side_order "Focaccia" 21; toast].
Proof.
  assert (getCurrentSize tasting < getCapacity tasting)%nat as Hroom by (vm_compute; lia).
  destruct (newOrder_with_room tasting _ toast tasting_wf tasting_contents Hroom)
    as (k' & Hres & _ & Hc & _).
  exists k'. split; [exact Hres|exact Hc].
Defined.

Lemma order_then_serve_witness :
  exists k1 k2, place_order toast tasting = Some (true, k1) /\
    serveDish toast k1 = Some (true, k2) /\
    contents k2 = contents tasting /\
    total_prep_time_ k2 = total_prep_time_ tasting.
Proof.
  assert (getCurrentSize tasting < getCapacity tasting)%nat as Hroom by (vm_compute; lia).
  assert (toast ∉ [side_order "Crostini" 10; side_order "Bruschetta" 20;
                   side_order "Focaccia" 21]) as Hnew
    by (apply (bool_decide_unpack _); by vm_compute).
  destruct (order_then_serve 4 tasting _ toast tasting_reachable tasting_contents Hroom)
    as (k1 & k2 & ds2 & H1 & H2 & Hc & _ & Hsame & _ & Ht & _).
  exists k1, k2. split; [done|]. split; [done|]. split; [|done].
  by rewrite Hc, (Hsame Hnew), tasting_contents.
Defined.

Lemma dietaryAdjustment_and_totals_witness :
  exists k' ds', dietaryAdjustment only_nut_free dinner = Some k' /\
    contents k' = Some ds' /\
    total_prep_time_ k' = wrap (sum_prep_time ds') /\
    Z.of_nat (count_elaborate ds') <= count_elaborate_ k'.
Proof.
  destruct (dietaryAdjustment_and_totals 3 only_nut_free dinner dinner_reachable)
    as (k' & ds' & Hres & _ & Hc & Ht & He).
  exists k', ds'. split; [done|]. split; [done|]. split; [done|].
  apply He. by vm_compute.
Defined.

Lemma dietaryAdjustment_repeated_witness :
  dietaryAdjustment only_nut_free dinner_nut_free = Some dinner_nut_free.
Proof.
  apply (dietaryAdjustment_repeated only_nut_free dinner dinner_nut_free dinner_wf);
    [done|done|by vm_compute].
Defined.

Lemma tallyCuisineTypes_counts_witness :
  tallyCuisineTypes cuisine_label "OTHER" dinner = Some 3 /\
  tallyCuisineTypes cuisine_label "THAI" dinner = Some 0 /\
  exists tallies, kitchenReport_tallies cuisine_label dinner = Some tallies /\
    foldr Z.add 0 tallies = 3.
Proof.
  destruct (tallyCuisineTypes_counts cuisine_label dinner _ dinner_wf dinner_contents)
    as (Hcount & Hnone & tallies & Hreport & Hsum).
  split; [by rewrite Hcount|]. split.
  - apply Hnone. by intros [].
  - exists tallies. split; [exact Hreport|].
    destruct Hsum as (_ & _ & Hall); [by vm_compute|].
    rewrite Hall; [reflexivity|].
    intros c. apply (bool_decide_unpack _). by destruct c; vm_compute.
Defined.

Lemma releaseDishesOfCuisineType_serves_only_matches_witness :
  exists k' ds' served,
    releaseDishesOfCuisineType cuisine_label "OTHER" dinner =
      Some (wrap (Z.of_nat (length served)), k') /\
    contents k' = Some ds' /\
    [stew; ADessert custard; praline_cake] ≡ₚ served ++ ds'.
Proof.
  destruct (releaseDishesOfCuisineType_serves_only_matches cuisine_label "OTHER"
              dinner _ dinner_wf dinner_contents)
    as (k' & ds' & served & Hres & _ & _ & Hc & Hperm & _).
  exists k', ds', served. split; [exact Hres|]. split; [exact Hc|exact Hperm].
Defined.

Lemma releaseDishesOfCuisineType_skips_moved_dish_witness :
  exists count k' ds',
    releaseDishesOfCuisineType cuisine_label "OTHER" dinner = Some (count, k') /\
    contents k' = Some ds' /\ ds' !! 0%nat = Some praline_cake.
Proof.
  assert (NoDup (stew :: [ADessert custard] ++ [praline_cake])) as Hnd
    by (apply (bool_decide_unpack _); by vm_compute).
  destruct (releaseDishesOfCuisineType_skips_moved_dish cuisine_label "OTHER" dinner
              stew praline_cake [ADessert custard] dinner_wf dinner_contents Hnd
              eq_refl eq_refl)
    as (count & k' & ds' & Hres & Hc & Hhead & _).
  exists count, k', ds'. split; [exact Hres|]. split; [exact Hc|exact Hhead].
Defined.

Lemma release_distinct_dishes_witness :
  exists count k' ds',
    releaseDishesBelowPrepTime 21 tasting = Some (count, k') /\
    contents k' = Some ds' /\
    Forall (fun d => 21 <= getPrepTime d) ds' /\
    count = 2.
Proof.
  assert (NoDup [side_order "Crostini" 10; side_order "Bruschetta" 20;
                 side_order "Focaccia" 21]) as Hnd
    by (apply (bool_decide_unpack _); by vm_compute).
  destruct (release_distinct_dishes 21 tasting _ tasting_wf tasting_contents Hnd)
    as (count & k' & ds' & Hres & _ & Hc & _ & Hall & Hcount).
  exists count, k', ds'. split; [done|]. split; [done|]. split; [done|].
  rewrite Hcount. by vm_compute.
Defined.

Lemma split_reads_back_witness :
  split "Bread;Tomato;Basil" ";" = ["Bread"; "Tomato"; "Basil"]%string.
Proof.
  apply (split_reads_back ";" ["Bread"; "Tomato"; "Basil"]%string).
  - by repeat (apply Forall_cons; split; [by vm_compute|]).
  - by vm_compute.
Defined.

Lemma Kitchen_from_file_is_consistent_witness :
  wf pantry /\
  exists ds, contents pantry = Some ds /\ (length ds <= 4)%nat /\ totals_agree pantry ds.
Proof.
  assert (Kitchen_from_file 4 decimal whole_price (Some pantry_file) = Some pantry)
    as Hload by (by vm_compute).
  destruct (Kitchen_from_file_is_consistent decimal whole_price 4 _ pantry Hload)
    as ((_ & Hwf & _ & Hds) & _).
  by split.
Defined.

Lemma process_line_skips_witness :
  process_line decimal whole_price "torn,line" dinner = Some dinner.
Proof.
  destruct (process_line_skips decimal whole_price "torn,line" dinner) as (Hshort & _).
  apply Hshort. vm_compute. lia.
Defined.

Lemma process_line_reads_record_witness :
  process_line decimal whole_price
    "APPETIZER,Bruschetta,Bread;Tomato,10,7,ITALIAN,PLATED;2;true" tasting =
  snd <$> place_order
    (AnAppetizer (mkAppetizer
       (mkBase "Bruschetta" ["Bread"; "Tomato"] 10 (b64_of_int 7) ITALIAN)
       PLATED 2 true)) tasting.
Proof.
  destruct (process_line_reads_record decimal whole_price tasting "Bruschetta"
              ["Bread"; "Tomato"]%string "10" "7" "ITALIAN" "PLATED" "2" "true"
              10 (b64_of_int 7))
    as (Happetizer & _).
  - by repeat (apply Forall_cons; split; [by vm_compute|]).
  - by vm_compute.
  - discriminate.
  - by vm_compute.
  - by vm_compute.
  - apply (Happetizer 2). by vm_compute.
Defined.
